(** * Wallet ledger and generation accounting of the PixelForge worker

    A shallow embedding of the credit-ledger core of the repository:

    - [src/src/worker/index.ts]: the [POST /api/generate] and
      [POST /api/webhook/stripe] route handlers with their helpers
      [enhanceProductPrompt], [generateImageWithGoogle] and
      [verifyStripeSignature];
    - [src/src/worker/services/database.ts]:
      [DatabaseService.updateWalletBalance];
    - [src/src/react-app/components/ImageGenerator.tsx]: the [RESOLUTIONS]
      table, and [StripeService.calculateBonusCredits] from the file next
      to it.

    JavaScript numbers are idealised as exact rationals ([Q]): rounding of
    IEEE doubles and [NaN] are outside the model.  The arithmetic of the
    handlers keeps its results in lowest terms; two rationals are compared
    with [==] ([Qeq]).  The D1 database is a record of tables; a route
    handler is a small program over database statements, so that it can be
    run to completion, run against failing statements, or interleaved with
    another request statement by statement. *)

From Stdlib Require Import ZArith QArith Qabs Qround Lqa Ascii String List DecimalString.
From Stdlib.Strings Require Import Byte.
From stdpp Require Import gmap strings.
Import ListNotations.
Open Scope string_scope.
Open Scope list_scope.

(** ** JavaScript values *)

Module Js.

(** [a < b] on numbers. *)
Definition lt (a b : Q) : bool := negb (Qle_bool b a).

(** [a >= b] on numbers. *)
Definition ge (a b : Q) : bool := Qle_bool b a.

(** [x || 0] for a column read from a possibly missing row: [undefined]
    and [0] are both falsy. *)
Definition or_zero (x : option Q) : Q :=
  match x with
  | Some b => if Qeq_bool b 0 then 0%Q else b
  | None => 0%Q
  end.

(** [a + b], [a - b], [a * b] and [a / b], in lowest terms. *)
Definition add (a b : Q) : Q := Qred (a + b).
Definition sub (a b : Q) : Q := Qred (a - b).
Definition mul (a b : Q) : Q := Qred (a * b).
Definition div (a b : Q) : Q := Qred (a / b).

(** [Math.abs] and [Math.floor]. *)
Definition abs (a : Q) : Q := Qabs a.
Definition floor (a : Q) : Z := Qfloor a.

(** A template literal's rendering of an integer. *)
Definition show (z : Z) : string := NilZero.string_of_int (Z.to_int z).

(** [s.includes(t)]. *)
Fixpoint includes (s t : string) : bool :=
  String.prefix t s ||
  match s with
  | EmptyString => false
  | String _ s' => includes s' t
  end.

(** [s.split('x')], with the piece being read carried in [cur]. *)
Fixpoint split_on (sep : ascii) (cur s : string) : list string :=
  match s with
  | EmptyString => [cur]
  | String c s' =>
      if Ascii.eqb c sep then cur :: split_on sep "" s'
      else split_on sep (cur +:+ String c "") s'
  end.

Definition split_x (s : string) : list string := split_on "x"%char "" s.

(** An array element in a template literal; a missing one prints as
    [undefined]. *)
Definition element (l : list string) (i : nat) : string :=
  nth i l "undefined".

End Js.

(** ** The database *)

(** [wallet_transactions.type]. *)
Inductive TransactionType := topup | deduct | bonus.

(** A row of [users]; only [wallet_balance] is written after creation. *)
Record User := {
  email : string;
  wallet_balance : Q
}.

(** A row of [wallet_transactions].  [credits_added] and
    [payment_gateway_id] are not bound by every INSERT, and [balance_after]
    is NULL when the sub-select of [updateWalletBalance] finds no user. *)
Record WalletTransaction := {
  user_id : string;
  type : TransactionType;
  amount : Q;
  credits_added : option Z;
  balance_after : option Q;
  payment_gateway_id : option string;
  description : string
}.

(** A row of [credit_usage]. *)
Record CreditUsage := {
  cu_user_id : string;
  cu_generation_id : string;
  cu_credits_consumed : Z;
  cu_generation_type : string;
  cu_resolution : string;
  cu_prompt : string;
  cu_image_url : string;
  cu_cost_in_rupees : Q
}.

(** A row of [generated_images]. *)
Record GeneratedImage := {
  gi_id : string;
  gi_user_id : string;
  gi_original_prompt : string;
  gi_enhanced_prompt : string;
  gi_image_url : string;
  gi_resolution : string;
  gi_generation_type : string;
  gi_credits_used : Z
}.

(** The tables the ledger core reads and writes; rows are kept in creation
    order. *)
Record DB := {
  users : gmap string User;
  wallet_transactions : list WalletTransaction;
  credit_usage : list CreditUsage;
  generated_images : list GeneratedImage
}.

Definition set_balance (b : Q) (u : User) : User :=
  {| email := email u; wallet_balance := b |}.

Definition balance_of (d : DB) (id : string) : option Q :=
  wallet_balance <$> users d !! id.

(** ** Database statements *)

(** The prepared statements of the two source files. *)
Inductive Statement :=
| UpdateBalanceTo (newBalance : Q) (id : string)
    (* UPDATE users SET wallet_balance = ? WHERE id = ? *)
| UpdateBalanceBy (delta : Q) (id : string)
    (* UPDATE users SET wallet_balance = wallet_balance + ? WHERE id = ? *)
| InsertTransaction (row : WalletTransaction)
    (* INSERT INTO wallet_transactions (...) VALUES (...) *)
| InsertTransactionSnapshot (uid : string) (ty : TransactionType)
    (amt : Q) (sub : string) (descr : string)
    (* ... VALUES (?, ?, ?, (SELECT wallet_balance FROM users WHERE id = ?), ?) *)
| InsertCreditUsage (row : CreditUsage)
| InsertGeneratedImage (row : GeneratedImage).

Definition with_users (d : DB) (us : gmap string User) : DB :=
  {| users := us;
     wallet_transactions := wallet_transactions d;
     credit_usage := credit_usage d;
     generated_images := generated_images d |}.

Definition add_transaction (d : DB) (row : WalletTransaction) : DB :=
  {| users := users d;
     wallet_transactions := wallet_transactions d ++ [row];
     credit_usage := credit_usage d;
     generated_images := generated_images d |}.

(** One statement applied to the database.  An UPDATE whose WHERE clause
    matches no row changes nothing. *)
Definition exec (s : Statement) (d : DB) : DB :=
  match s with
  | UpdateBalanceTo b id =>
      with_users d (alter (set_balance b) id (users d))
  | UpdateBalanceBy delta id =>
      with_users d
        (alter (fun u => set_balance (Js.add (wallet_balance u) delta) u) id
           (users d))
  | InsertTransaction row => add_transaction d row
  | InsertTransactionSnapshot uid ty amt sub descr =>
      add_transaction d
        {| user_id := uid; type := ty; amount := amt;
           credits_added := None;
           balance_after := balance_of d sub;
           payment_gateway_id := None;
           description := descr |}
  | InsertCreditUsage row =>
      {| users := users d;
         wallet_transactions := wallet_transactions d;
         credit_usage := credit_usage d ++ [row];
         generated_images := generated_images d |}
  | InsertGeneratedImage row =>
      {| users := users d;
         wallet_transactions := wallet_transactions d;
         credit_usage := credit_usage d;
         generated_images := generated_images d ++ [row] |}
  end.

Definition exec_all (ss : list Statement) (d : DB) : DB :=
  fold_left (fun acc s => exec s acc) ss d.

(** ** Handlers as programs over statements *)

(** An [async] body: every constructor but [Return] and [Throw] is one
    awaited database call followed by the rest of the body. *)
Inductive Handler (R : Type) : Type :=
| Return (r : R)
| Throw (message : string)
| SelectBalance (id : string) (k : option Q -> Handler R)
    (* SELECT wallet_balance FROM users WHERE id = ?; results[0]?.wallet_balance *)
| Run (s : Statement) (k : Handler R)
    (* await db.prepare(...).bind(...).run() *)
| Batch (ss : list Statement) (k : Handler R).
    (* await db.batch([...]): one transaction *)

Arguments Return {R} r.
Arguments Throw {R} message.
Arguments SelectBalance {R} id k.
Arguments Run {R} s k.
Arguments Batch {R} ss k.

(** What the database does to the next call: answer it, or reject it with
    an error message. *)
Definition Faults := list (option string).

Definition next_fault (fs : Faults) : option string * Faults :=
  match fs with
  | [] => (None, [])
  | f :: fs' => (f, fs')
  end.

(** The first rejection among the statements of a batch. *)
Fixpoint batch_fault (n : nat) (fs : Faults) : option string * Faults :=
  match n with
  | O => (None, fs)
  | S n' =>
      match next_fault fs with
      | (Some e, fs') => (Some e, fs')
      | (None, fs') => batch_fault n' fs'
      end
  end.

(** Run a body to its end.  A rejected call throws and leaves the database
    as the calls before it made it; a rejected batch rolls back whole. *)
Fixpoint run {R} (fs : Faults) (h : Handler R) (d : DB) : (string + R) * DB :=
  match h with
  | Return r => (inr r, d)
  | Throw e => (inl e, d)
  | SelectBalance id k =>
      match next_fault fs with
      | (Some e, _) => (inl e, d)
      | (None, fs') => run fs' (k (balance_of d id)) d
      end
  | Run s k =>
      match next_fault fs with
      | (Some e, _) => (inl e, d)
      | (None, fs') => run fs' k (exec s d)
      end
  | Batch ss k =>
      match batch_fault (length ss) fs with
      | (Some e, _) => (inl e, d)
      | (None, fs') => run fs' k (exec_all ss d)
      end
  end.

(** One awaited call of a body, for interleaving two requests. *)
Definition step {R} (h : Handler R) (d : DB) : Handler R * DB :=
  match h with
  | Return r => (Return r, d)
  | Throw e => (Throw e, d)
  | SelectBalance id k => (k (balance_of d id), d)
  | Run s k => (k, exec s d)
  | Batch ss k => (k, exec_all ss d)
  end.

(** Two requests in flight on one database: [true] lets the first one make
    its next call, [false] the second. *)
Fixpoint interleave {R} (schedule : list bool) (h1 h2 : Handler R) (d : DB)
  : Handler R * Handler R * DB :=
  match schedule with
  | [] => (h1, h2, d)
  | true :: rest =>
      let '(h1', d') := step h1 d in interleave rest h1' h2 d'
  | false :: rest =>
      let '(h2', d') := step h2 d in interleave rest h1 h2' d'
  end.

(** ** Responses *)

Inductive Body :=
| ErrorBody (error : string)
| InsufficientBody (error : string) (required current : Q)
| GeneratedBody (id imageUrl : string) (creditsUsed : Z) (newBalance : Q)
    (enhancedPrompt : string)
| ReceivedBody (received : bool).

Record Response := { status : Z; body : Body }.

Definition json (b : Body) (code : Z) : Response :=
  {| status := code; body := b |}.

(** The [try { ... } catch (error) { return c.json(..., 500) }] around a
    route body. *)
Definition route (catch : string -> Response) (fs : Faults)
    (h : Handler Response) (d : DB) : Response * DB :=
  match run fs h d with
  | (inl e, d') => (catch e, d')
  | (inr r, d') => (r, d')
  end.

(** ** Pricing *)

(** [StripeService.calculateBonusCredits]. *)
Definition calculateBonusCredits (amount : Q) : Z :=
  if Js.ge amount 5000 then 50
  else if Js.ge amount 2500 then 15
  else if Js.ge amount 1000 then 5
  else 0.

(** An entry of the component's [RESOLUTIONS] table. *)
Record ResolutionOption := {
  value : string;
  label : string;
  credits : Z;
  recommended : bool
}.

Definition RESOLUTIONS : list ResolutionOption :=
  [ {| value := "1024x1024"; label := "Square"; credits := 1; recommended := false |};
    {| value := "1920x1080"; label := "Landscape HD"; credits := 2; recommended := true |};
    {| value := "1080x1920"; label := "Portrait HD"; credits := 2; recommended := false |};
    {| value := "2560x1440"; label := "2K Quality"; credits := 3; recommended := false |};
    {| value := "3840x2160"; label := "4K Ultra"; credits := 5; recommended := false |} ].

(** Modelled from the spec: [calculateCreditCost] is imported from
    [@/shared/types], a file that is not among the sources.  Section 4.1 of
    the specification makes the cost the credit weight of the resolution in
    the table above, whatever the image count, and at least one credit; a
    resolution the table does not list costs one credit, as in the
    component's own [RESOLUTIONS.find(...)?.credits || 1]. *)
Definition calculateCreditCost (resolution : string) (imageCount : nat) : Z :=
  match find (fun r => String.eqb (value r) resolution) RESOLUTIONS with
  | Some r => credits r
  | None => 1
  end.

(** The handlers' [rupeesCost = creditCost * 25]. *)
Definition rupees (creditCost : Z) : Q := Js.mul (inject_Z creditCost) 25.

(** ** Helpers of the worker *)

(** [enhanceProductPrompt]. *)
Definition enhanceProductPrompt (basePrompt generationType resolution : string)
  : string :=
  let enhancement :=
    if String.eqb generationType "lifestyle" then
      "Professional lifestyle product photography, natural lighting, real-world setting, "
    else if String.eqb generationType "studio" then
      "Professional studio product photography, clean background, perfect lighting, commercial quality, "
    else if String.eqb generationType "seasonal" then
      "Seasonal themed product photography, atmospheric lighting, contextual elements, "
    else if String.eqb generationType "ecommerce" then
      "E-commerce product photography, clean white background, sharp focus, high detail, "
    else "Professional product photography, high quality, detailed, " in
  let qualityEnhancement :=
    if Js.includes resolution "4K" || Js.includes resolution "2560"
    then "ultra high resolution, 8K quality, extremely detailed, "
    else "high resolution, sharp focus, detailed, " in
  enhancement +:+ qualityEnhancement +:+ basePrompt +:+
  ", professional commercial photography, perfect composition, award-winning photography".

(** What the [try] block of [generateImageWithGoogle] comes to: the URL
    [storeImageInR2] returned, or an error thrown on the way (the token
    request, a response that is not [ok], the R2 upload). *)
Inductive Outcome :=
| Fulfilled (imageUrl : string)
| Rejected (error : string).

(** What a generation request finds outside the database. *)
Record World := {
  imagen : Outcome;
  fallback_now : Z;   (* Date.now() in the catch block *)
  now : Z;            (* Date.now() of the generation id *)
  random : string     (* Math.random().toString(36).substr(2, 9) *)
}.

(** [generateImageWithGoogle]: its [catch] turns every error into a
    placeholder URL, so it never rejects. *)
Definition generateImageWithGoogle (w : World) (prompt resolution : string)
    (productImages : list string) : string :=
  match imagen w with
  | Fulfilled imageUrl => imageUrl
  | Rejected _ =>
      let parts := Js.split_x resolution in
      "https://picsum.photos/" +:+ Js.element parts 0 +:+ "/" +:+
      Js.element parts 1 +:+ "?random=" +:+ Js.show (fallback_now w)
  end.

(** [verifyStripeSignature]. *)
Definition verifyStripeSignature (payload signature secret : string) : bool :=
  Js.includes signature "v1=" && (0 <? String.length secret)%nat.

(** ** [DatabaseService.updateWalletBalance] *)

Definition updateWalletBalance (userId : string) (amount : Q)
    (description : string) : Handler unit :=
  Batch
    [ UpdateBalanceBy amount userId;
      InsertTransactionSnapshot userId
        (if Js.lt 0 amount then topup else deduct)
        (Js.abs amount) userId description ]
    (Return tt).

(** ** [POST /api/generate] *)

(** The authenticated user put in the context by [authMiddleware]. *)
Record AuthUser := { auth_id : string; auth_email : string }.

(** The validated JSON body. *)
Record GenerationRequest := {
  prompt : string;
  resolution : string;
  generationType : string;
  productImages : list string
}.

Definition generationId (w : World) : string :=
  "img_" +:+ Js.show (now w) +:+ "_" +:+ random w.

Definition generate (user : option AuthUser) (req : GenerationRequest)
    (w : World) : Handler Response :=
  match user with
  | None => Return (json (ErrorBody "User not authenticated") 401)
  | Some user =>
      if (length (productImages req) =? 0)%nat then
        Return (json (ErrorBody "At least one product image is required") 400)
      else
        let creditCost :=
          calculateCreditCost (resolution req) (length (productImages req)) in
        let rupeesCost := rupees creditCost in
        SelectBalance (auth_id user) (fun wallet_balance =>
          let currentBalance := Js.or_zero wallet_balance in
          if Js.lt currentBalance rupeesCost then
            Return (json (InsufficientBody "Insufficient wallet balance"
                            rupeesCost currentBalance) 400)
          else
            let enhancedPrompt :=
              enhanceProductPrompt (prompt req) (generationType req)
                (resolution req) in
            let imageUrl :=
              generateImageWithGoogle w enhancedPrompt (resolution req)
                (productImages req) in
            let newBalance := Js.sub currentBalance rupeesCost in
            Run (UpdateBalanceTo newBalance (auth_id user))
              (Run (InsertTransaction
                      {| user_id := auth_id user; type := deduct;
                         amount := rupeesCost; credits_added := Some 0%Z;
                         balance_after := Some newBalance;
                         payment_gateway_id := None;
                         description :=
                           "Image generation - " +:+ resolution req +:+
                           " - " +:+ Js.show creditCost +:+ " credits" |})
                 (Run (InsertCreditUsage
                         {| cu_user_id := auth_id user;
                            cu_generation_id := generationId w;
                            cu_credits_consumed := creditCost;
                            cu_generation_type := generationType req;
                            cu_resolution := resolution req;
                            cu_prompt := prompt req;
                            cu_image_url := imageUrl;
                            cu_cost_in_rupees := rupeesCost |})
                    (Run (InsertGeneratedImage
                            {| gi_id := generationId w;
                               gi_user_id := auth_id user;
                               gi_original_prompt := prompt req;
                               gi_enhanced_prompt := enhancedPrompt;
                               gi_image_url := imageUrl;
                               gi_resolution := resolution req;
                               gi_generation_type := generationType req;
                               gi_credits_used := creditCost |})
                       (Return
                          (json (GeneratedBody (generationId w) imageUrl
                                   creditCost newBalance enhancedPrompt)
                             200))))))
  end.

(** The route: an error anywhere in the body is answered with its message
    and status 500. *)
Definition post_generate (fs : Faults) (user : option AuthUser)
    (req : GenerationRequest) (w : World) (d : DB) : Response * DB :=
  route (fun e => json (ErrorBody e) 500) fs (generate user req w) d.

(** ** [POST /api/webhook/stripe] *)

Record Metadata := { md_user_id : string }.

(** [event.data.object] of a checkout event. *)
Record Session := {
  session_id : string;
  metadata : option Metadata;
  amount_total : Q
}.

Record StripeEvent := {
  event_type : string;
  data_object : option Session
}.

Record WebhookRequest := {
  stripe_signature : option string;   (* the stripe-signature header *)
  payload : string                    (* await c.req.text() *)
}.

Section Webhook.

(** [JSON.parse] read as a Stripe event; [None] when it throws. *)
Variable JSON_parse : string -> option StripeEvent.

(** [c.env.STRIPE_WEBHOOK_SECRET]. *)
Variable STRIPE_WEBHOOK_SECRET : string.

Definition credit_session (session : Session) : Handler Response :=
  match metadata session with
  | None => Throw "Cannot read properties of undefined (reading 'user_id')"
  | Some md =>
      let userId := md_user_id md in
      let amount := Js.div (amount_total session) 100 in
      let credits := Js.floor (Js.div amount 25) in
      SelectBalance userId (fun wallet_balance =>
        let currentBalance := Js.or_zero wallet_balance in
        let newBalance := Js.add currentBalance amount in
        Run (UpdateBalanceTo newBalance userId)
          (Run (InsertTransaction
                  {| user_id := userId; type := topup; amount := amount;
                     credits_added := Some credits;
                     balance_after := Some newBalance;
                     payment_gateway_id := Some (session_id session);
                     description :=
                       "Payment completed - " +:+ Js.show credits +:+
                       " credits added" |})
             (Return (json (ReceivedBody true) 200))))
  end.

Definition stripe_webhook (req : WebhookRequest) : Handler Response :=
  match stripe_signature req with
  | None | Some "" => Return (json (ErrorBody "No signature header") 400)
  | Some signature =>
      if negb (verifyStripeSignature (payload req) signature
                 STRIPE_WEBHOOK_SECRET) then
        Return (json (ErrorBody "Invalid signature") 400)
      else
        match JSON_parse (payload req) with
        | None => Throw "Unexpected token in JSON"
        | Some event =>
            if String.eqb (event_type event) "checkout.session.completed"
            then
              match data_object event with
              | None =>
                  Throw "Cannot read properties of undefined (reading 'metadata')"
              | Some session => credit_session session
              end
            else Return (json (ReceivedBody true) 200)
        end
  end.

(** The route: whatever is thrown is answered with one fixed message. *)
Definition post_webhook_stripe (fs : Faults) (req : WebhookRequest)
    (d : DB) : Response * DB :=
  route (fun _ => json (ErrorBody "Webhook processing failed") 500) fs
    (stripe_webhook req) d.

End Webhook.

(** ** The ledger read back *)

(** The signed amount of a row: a top-up or a bonus adds, a deduction takes
    away. *)
Definition signed (t : WalletTransaction) : Q :=
  match type t with
  | deduct => (- amount t)%Q
  | topup | bonus => amount t
  end.

(** The rows of one user, in creation order. *)
Definition ledger_of (id : string) (rows : list WalletTransaction)
  : list WalletTransaction :=
  filter (fun t => user_id t = id) rows.

(** Replaying rows from a zero balance. *)
Definition replay (rows : list WalletTransaction) : Q :=
  fold_left (fun acc t => (acc + signed t)%Q) rows 0%Q.

(** The [balance_after] of a row is the number [q]. *)
Definition snapshot_is (t : WalletTransaction) (q : Q) : Prop :=
  match balance_after t with
  | Some s => (s == q)%Q
  | None => False
  end.

(** Every row carries the balance its own mutation produced. *)
Definition snapshots_ok (rows : list WalletTransaction) : Prop :=
  forall n t, rows !! n = Some t -> snapshot_is t (replay (take (S n) rows)).

(** The invariant of the account-and-journal pair, for the users that have
    a row in [users]. *)
Definition consistent (d : DB) : Prop :=
  forall id u, users d !! id = Some u ->
    (wallet_balance u == replay (ledger_of id (wallet_transactions d)))%Q /\
    snapshots_ok (ledger_of id (wallet_transactions d)).


Section Operations.

Variable JSON_parse : string -> option StripeEvent.
Variable STRIPE_WEBHOOK_SECRET : string.



End Operations.

(** Two generation requests whose statements interleave so that both
    balance reads come before either write. *)
Definition reads_then_writes : list bool :=
  [true; false; true; true; true; true; false; false; false; false].

(** A body past its read: the statements it still runs, one awaited call
    each, and then its answer. *)
Definition writes {R} (ss : list Statement) (r : R) : Handler R :=
  fold_right (fun s k => Run s k) (Return r) ss.

(** The order in which the statements of two such bodies reach the database
    under a schedule. *)
Fixpoint merge_by {A} (schedule : list bool) (l1 l2 : list A) : list A :=
  match schedule with
  | [] => []
  | true :: rest =>
      match l1 with
      | [] => merge_by rest [] l2
      | x :: l1' => x :: merge_by rest l1' l2
      end
  | false :: rest =>
      match l2 with
      | [] => merge_by rest l1 []
      | x :: l2' => x :: merge_by rest l1 l2'
      end
  end.

(** How many calls a schedule gives to the first ([true]) or to the second
    ([false]) request. *)
Fixpoint turns (who : bool) (schedule : list bool) : nat :=
  match schedule with
  | [] => 0
  | b :: rest => (if Bool.eqb b who then 1 else 0) + turns who rest
  end.

(** Under a schedule the first request makes its call number [n1] before the
    second request makes its call number [n2], calls counted from 0. *)
Fixpoint calls_before (n1 n2 : nat) (schedule : list bool) : bool :=
  match schedule with
  | [] => true
  | true :: rest =>
      match n1 with
      | O => true
      | S n => calls_before n n2 rest
      end
  | false :: rest =>
      match n2 with
      | O => false
      | S n => calls_before n1 n rest
      end
  end.

(** A generation request that is served makes five calls: the balance
    SELECT (call 0), the balance UPDATE (call 1), and the INSERTs into
    [wallet_transactions] (call 2), [credit_usage] and [generated_images].
    Under these schedules each request reads the balance before the other
    one writes it, and both requests get to make all their calls. *)
Definition reads_before_writes (schedule : list bool) : bool :=
  calls_before 0 1 schedule && negb (calls_before 1 0 schedule) &&
  (5 <=? turns true schedule)%nat && (5 <=? turns false schedule)%nat.

(** The ledger row a statement appends, and the balance it stores, when the
    statement itself says which. *)
Definition transaction_of (s : Statement) : option WalletTransaction :=
  match s with
  | InsertTransaction row => Some row
  | _ => None
  end.

Definition balance_set_by (s : Statement) : option (Q * string) :=
  match s with
  | UpdateBalanceTo b id => Some (b, id)
  | _ => None
  end.

(** The statements whose effect does not depend on the stored balance. *)
Definition blind (s : Statement) : bool :=
  match s with
  | UpdateBalanceBy _ _ | InsertTransactionSnapshot _ _ _ _ _ => false
  | _ => true
  end.

Definition set_balances (sets : list (Q * string)) (us : gmap string User)
  : gmap string User :=
  fold_left (fun acc '(b, id) => alter (set_balance b) id acc) sets us.

(** ** [DatabaseService.createUser] and [getUserStats] *)

(** The columns of a [users] row that [User] leaves out. *)
Record Profile := {
  name : option string;
  picture : option string
}.

(** A row of [user_preferences], with the defaults of [migrations/2.sql]. *)
Record Preferences := {
  default_resolution : string;
  default_generation_type : string;
  notification_emails : bool;
  auto_enhance_prompts : bool;
  preferred_style : string
}.

Definition default_preferences : Preferences :=
  {| default_resolution := "1920x1080";
     default_generation_type := "lifestyle";
     notification_emails := true;
     auto_enhance_prompts := true;
     preferred_style := "professional" |}.

(** The database with the rest of the account data: the remaining columns
    of [users], keyed like [users], and the [user_preferences] table. *)
Record Accounts := {
  db : DB;
  profiles : gmap string Profile;
  user_preferences : gmap string Preferences
}.

(** The argument of [createUser]. *)
Record UserData := {
  ud_id : string;
  ud_email : string;
  ud_name : option string;
  ud_picture : option string
}.

(** [value || null]: a missing or empty string is stored as [NULL]. *)
Definition or_null (s : option string) : option string :=
  match s with
  | Some "" | None => None
  | Some text => Some text
  end.

(** [createUser], on a database that answers both calls: two
    [INSERT OR IGNORE] statements, each a no-op when its key ([users.id],
    [user_preferences.user_id]) is taken.  [run()] resolves with [success]
    set, so the second statement always follows the first. *)
Definition createUser (userData : UserData) (a : Accounts) : Accounts :=
  let inserted :=
    match users (db a) !! ud_id userData with
    | Some _ => a
    | None =>
        {| db :=
             with_users (db a)
               (<[ud_id userData :=
                    {| email := ud_email userData; wallet_balance := 0 |}]>
                  (users (db a)));
           profiles :=
             <[ud_id userData :=
                 {| name := or_null (ud_name userData);
                    picture := or_null (ud_picture userData) |}]>
               (profiles a);
           user_preferences := user_preferences a |}
    end in
  match user_preferences inserted !! ud_id userData with
  | Some _ => inserted
  | None =>
      {| db := db inserted;
         profiles := profiles inserted;
         user_preferences :=
           <[ud_id userData := default_preferences]>
             (user_preferences inserted) |}
  end.

(** The name and picture of a [users] row; both are [NULL] in a row for
    which none were stored. *)
Definition profile_of (userId : string) (a : Accounts) : Profile :=
  default {| name := None; picture := None |} (profiles a !! userId).

(** [getUserStats]: the [users] row left-joined with its preferences, or
    [undefined] when there is no such user. *)
Definition getUserStats (userId : string) (a : Accounts)
  : option (User * Profile * option Preferences) :=
  match users (db a) !! userId with
  | Some u => Some (u, profile_of userId a, user_preferences a !! userId)
  | None => None
  end.

(** ** [DatabaseService.getImages] *)

(** [LIMIT ? OFFSET ?] as SQLite reads it: a negative limit is no limit and
    a negative offset is no offset. *)
Definition limit_offset {A} (limit offset : Z) (rows : list A) : list A :=
  let rest := drop (Z.to_nat offset) rows in
  if (limit <? 0)%Z then rest else take (Z.to_nat limit) rest.

(** The object [getImages] returns. *)
Record ImagePage := {
  images : list GeneratedImage;
  total : Z;
  page : Z;
  limit : Z;
  totalPages : Z
}.

(** [WHERE user_id = ?] on [generated_images]. *)
Definition images_of (userId : string) (d : DB) : list GeneratedImage :=
  filter (fun i => gi_user_id i = userId) (generated_images d).

Section GetImages.

(** [ORDER BY created_at DESC]: the rows of this model carry no timestamp,
    so the order the database returns them in is left open. *)
Variable newest_first : list GeneratedImage -> list GeneratedImage.

(** [getImages], for a limit other than zero. *)
Definition getImages (userId : string) (page limit : Z) (d : DB) : ImagePage :=
  let offset := ((page - 1) * limit)%Z in
  let count := Z.of_nat (length (images_of userId d)) in
  {| images := limit_offset limit offset (newest_first (images_of userId d));
     total := count;
     page := page;
     limit := limit;
     totalPages := Qceiling (inject_Z count / inject_Z limit) |}.

End GetImages.

(** ** The generator component and the payment plans *)

(** [canGenerate] of the [ImageGenerator] component: what enables its
    button. *)
Definition canGenerate (walletBalance : Q) (resolution : string)
    (images : list string) : bool :=
  let creditCost := calculateCreditCost resolution (length images) in
  let rupeesCost := rupees creditCost in
  Js.ge walletBalance rupeesCost && (0 <? length images)%nat.

(** An entry of [PAYMENT_PLANS]. *)
Record PaymentPlan := {
  plan_amount : Q;
  plan_credits : Z;
  plan_popular : bool;
  plan_bonus : option Z
}.

Definition PAYMENT_PLANS : list PaymentPlan :=
  [ {| plan_amount := 500; plan_credits := 20; plan_popular := false;
       plan_bonus := None |};
    {| plan_amount := 1000; plan_credits := 40; plan_popular := true;
       plan_bonus := Some 5%Z |};
    {| plan_amount := 2500; plan_credits := 100; plan_popular := false;
       plan_bonus := Some 15%Z |};
    {| plan_amount := 5000; plan_credits := 200; plan_popular := false;
       plan_bonus := Some 50%Z |} ].

(** What [StripeService.createCheckoutSession] asks Stripe to create. *)
Record CheckoutParams := {
  payment_method_types : list string;
  currency : string;
  product_name : string;
  product_description : string;
  unit_amount : Q;
  quantity : Z;
  mode : string;
  success_url : string;
  cancel_url : string;
  customer_email : string;
  meta_user_id : string;
  meta_base_credits : string;
  meta_bonus_credits : string
}.

(** The argument [createCheckoutSession] builds for
    [stripe.checkout.sessions.create]. *)
Definition createCheckoutSession (amount : Q)
    (userId userEmail successUrl cancelUrl : string) : CheckoutParams :=
  let credits := Js.floor (Js.div amount 25) in
  let bonusCredits := calculateBonusCredits amount in
  {| payment_method_types := ["card"];
     currency := "inr";
     product_name := "PixelForge Credits";
     product_description :=
       Js.show (credits + bonusCredits) +:+ " credits (" +:+ Js.show credits +:+
       " base + " +:+ Js.show bonusCredits +:+ " bonus)";
     unit_amount := Js.mul amount 100;
     quantity := 1;
     mode := "payment";
     success_url := successUrl;
     cancel_url := cancelUrl;
     customer_email := userEmail;
     meta_user_id := userId;
     meta_base_credits := Js.show credits;
     meta_bonus_credits := Js.show bonusCredits |}.

(** The amount check of [POST /api/payment/create-checkout] in [index.ts]:
    [!amount || amount < 100]. *)
Definition amount_refused (amount : Q) : bool :=
  Qeq_bool amount 0 || Js.lt amount 100.

(** ** The wallet panel *)

(** [availableCredits] and [isLowBalance] of the [WalletManager]
    component. *)
Definition availableCredits (walletBalance : Q) : Z :=
  Js.floor (Js.div walletBalance 25).

Definition isLowBalance (walletBalance : Q) : bool :=
  (availableCredits walletBalance <? 5)%Z.

(** ** What a body may still write *)

(** Every statement the body can still run satisfies [P], whatever its
    reads return. *)
Fixpoint writes_only {R} (P : Statement -> Prop) (h : Handler R) : Prop :=
  match h with
  | Return _ | Throw _ => True
  | SelectBalance _ k => forall r, writes_only P (k r)
  | Run s k => P s /\ writes_only P k
  | Batch ss k => Forall P ss /\ writes_only P k
  end.

(** A statement that cannot leave a negative balance behind. *)
Definition keeps_nonneg (s : Statement) : Prop :=
  match s with
  | UpdateBalanceTo newBalance _ => (0 <= newBalance)%Q
  | UpdateBalanceBy _ _ => False
  | InsertTransaction _ | InsertTransactionSnapshot _ _ _ _ _
  | InsertCreditUsage _ | InsertGeneratedImage _ => True
  end.

(** No wallet is overdrawn. *)
Definition no_overdraft (d : DB) : Prop :=
  forall id u, users d !! id = Some u -> (0 <= wallet_balance u)%Q.

(** One user sending the same generation request again and again, each
    request served to its end before the next, on a database that answers
    every call. *)
Fixpoint generate_each (user : AuthUser) (req : GenerationRequest)
    (worlds : list World) (d : DB) : list Response * DB :=
  match worlds with
  | [] => ([], d)
  | w :: rest =>
      let '(r, d') := post_generate [] (Some user) req w d in
      let '(rs, d'') := generate_each user req rest d' in
      (r :: rs, d'')
  end.

(** A series of [updateWalletBalance] calls, each against its own list of
    rejections. *)
Definition updateWalletBalance_each
    (calls : list (Faults * string * Q * string)) (d : DB) : DB :=
  fold_left
    (fun acc '(fs, userId, amount, description) =>
       snd (run fs (updateWalletBalance userId amount description) acc))
    calls d.

(** ** [middleware/security.ts] *)

(** What a middleware does with a request: hand it on, or answer it. *)
Inductive Verdict :=
| Next
| Respond (r : Response).

(** [buffer[i] === b]; an index past the end reads [undefined]. *)
Definition byte_at (buffer : list byte) (i : nat) (b : byte) : bool :=
  match buffer !! i with
  | Some x => Byte.eqb x b
  | None => false
  end.

(** [isValidImage]: the magic bytes of PNG, JPEG and WebP. *)
Definition isValidImage (buffer : list byte) : bool :=
  if (8 <=? length buffer)%nat &&
     byte_at buffer 0 x89 && byte_at buffer 1 x50 &&
     byte_at buffer 2 x4e && byte_at buffer 3 x47
  then true
  else if (2 <=? length buffer)%nat &&
          byte_at buffer 0 xff && byte_at buffer 1 xd8
  then true
  else if (12 <=? length buffer)%nat &&
          byte_at buffer 0 x52 && byte_at buffer 1 x49 &&
          byte_at buffer 2 x46 && byte_at buffer 3 x46 &&
          byte_at buffer 8 x57 && byte_at buffer 9 x45 &&
          byte_at buffer 10 x42 && byte_at buffer 11 x50
  then true
  else false.

(** A [File] of a form: its [type] and its content; [size] is the length
    of the content. *)
Record File := {
  file_type : string;
  file_content : list byte
}.

Definition file_size (f : File) : nat := length (file_content f).

(** A value of [formData.entries()]. *)
Inductive FormValue :=
| Field (text : string)
| Upload (f : File).

Record UploadRequest := {
  content_type : option string;              (* the content-type header *)
  form_data : list (string * FormValue)      (* await c.req.formData() *)
}.

(** The three checks made on one [File], in the order of the source. *)
Definition check_file (maxSize : nat) (f : File) : Verdict :=
  if (maxSize <? file_size f)%nat then
    Respond (json (ErrorBody "File too large") 413)
  else if negb (String.prefix "image/" (file_type f)) then
    Respond (json (ErrorBody "Invalid file type") 400)
  else if negb (isValidImage (file_content f)) then
    Respond (json (ErrorBody "Invalid image file") 400)
  else Next.

(** The [for ... of formData.entries()] loop: the first offending file
    answers the request. *)
Fixpoint check_entries (maxSize : nat) (entries : list (string * FormValue))
  : Verdict :=
  match entries with
  | [] => Next
  | (_, Field _) :: rest => check_entries maxSize rest
  | (_, Upload f) :: rest =>
      match check_file maxSize f with
      | Respond r => Respond r
      | Next => check_entries maxSize rest
      end
  end.

(** The uploads among the entries of a form. *)
Definition uploads (entries : list (string * FormValue)) : list File :=
  omap (fun e => match snd e with Upload f => Some f | Field _ => None end)
    entries.

(** [validateImageUpload(maxSize)]. *)
Definition validateImageUpload (maxSize : nat) (req : UploadRequest) : Verdict :=
  match content_type req with
  | Some contentType =>
      if Js.includes contentType "multipart/form-data"
      then check_entries maxSize (form_data req)
      else Next
  | None => Next
  end.

(** The default [maxSize = 10 * 1024 * 1024]. *)
Definition defaultMaxSize : nat := 10 * 1024 * 1024.

(** An entry of the [attempts] map of [rateLimitByUser]. *)
Record Attempts := {
  count : Z;
  resetTime : Z
}.

Definition windowMs : Z := 15 * 60 * 1000.
Definition maxAttempts : Z := 10.

(** [rateLimitByUser()]: the middleware it returns, with the [attempts] map
    it closes over passed in and out; [now] is [Date.now()]. *)
Definition rateLimitByUser (user : option AuthUser) (now : Z)
    (attempts : gmap string Attempts) : Verdict * gmap string Attempts :=
  match user with
  | None => (Next, attempts)
  | Some user =>
      let key := auth_id user in
      match attempts !! key with
      | None =>
          (Next, <[key := {| count := 1; resetTime := now + windowMs |}]> attempts)
      | Some record =>
          if (resetTime record <? now)%Z then
            (Next,
             <[key := {| count := 1; resetTime := now + windowMs |}]> attempts)
          else if (maxAttempts <=? count record)%Z then
            (Respond
               (json (ErrorBody
                        "Rate limit exceeded. Please wait before generating more images.")
                  429),
             attempts)
          else
            (Next,
             <[key := {| count := count record + 1;
                         resetTime := resetTime record |}]> attempts)
      end
  end.

(** Requests passing through the limiter one after the other, each with
    the verdict it got, and the map left behind. *)
Fixpoint rateLimit_serve (requests : list (option AuthUser * Z))
    (attempts : gmap string Attempts)
  : list (option AuthUser * Z * Verdict) * gmap string Attempts :=
  match requests with
  | [] => ([], attempts)
  | (user, now) :: rest =>
      let '(v, attempts') := rateLimitByUser user now attempts in
      let '(served, attempts'') := rateLimit_serve rest attempts' in
      ((user, now, v) :: served, attempts'')
  end.

(** The request comes from the user with this id. *)
Definition from_user (id : string) (user : option AuthUser) : bool :=
  match user with
  | Some u => bool_decide (auth_id u = id)
  | None => false
  end.

Definition admitted (v : Verdict) : bool :=
  match v with
  | Next => true
  | Respond _ => false
  end.

(** ** A small world to run the handlers in *)

Module Scenario.

Definition alice : AuthUser :=
  {| auth_id := "user_1"; auth_email := "alice@example.com" |}.

(** A database with one user, [balance] rupees and an empty ledger. *)
Definition fresh (balance : Q) : DB :=
  {| users :=
       {[ "user_1" :=
            {| email := "alice@example.com"; wallet_balance := balance |} ]};
     wallet_transactions := [];
     credit_usage := [];
     generated_images := [] |}.

Definition landscape : GenerationRequest :=
  {| prompt := "a red mug";
     resolution := "1920x1080";
     generationType := "studio";
     productImages := ["data:image/png;base64,iVBORw0KGgo="] |}.

(** The Imagen call answers with an error. *)
Definition imagen_down : World :=
  {| imagen := Rejected "Failed to generate image with Google Imagen";
     fallback_now := 1700000000000;
     now := 1700000000001;
     random := "k3j9x0a1b" |}.

(** The Imagen call answers with an image. *)
Definition imagen_up : World :=
  {| imagen := Fulfilled "https://img.example.com/generated/1_abc.png";
     fallback_now := 1700000000000;
     now := 1700000000002;
     random := "z8y7x6w5v" |}.

(** A completed checkout of 1000 rupees (100000 paise). *)
Definition checkout_1000 : StripeEvent :=
  {| event_type := "checkout.session.completed";
     data_object :=
       Some {| session_id := "cs_test_a1B2";
               metadata := Some {| md_user_id := "user_1" |};
               amount_total := 100000 |} |}.

Definition refund : StripeEvent :=
  {| event_type := "charge.refunded"; data_object := None |}.

(** A parser that knows the two payloads of this scenario. *)
Definition parse (payload : string) : option StripeEvent :=
  if String.eqb payload "checkout" then Some checkout_1000
  else if String.eqb payload "refund" then Some refund
  else None.

Definition secret : string := "whsec_test".

Definition delivery (payload : string) : WebhookRequest :=
  {| stripe_signature := Some "t=1700000000,v1=5257a869";
     payload := payload |}.

End Scenario.

(** * Properties *)

(** ** Numbers *)

Module JsFacts.

Lemma add_spec a b : (Js.add a b == a + b)%Q.
Proof. apply Qred_correct. Qed.

Lemma sub_spec a b : (Js.sub a b == a - b)%Q.
Proof. apply Qred_correct. Qed.

Lemma mul_spec a b : (Js.mul a b == a * b)%Q.
Proof. apply Qred_correct. Qed.

Lemma div_spec a b : (Js.div a b == a / b)%Q.
Proof. apply Qred_correct. Qed.

Lemma lt_spec a b : Js.lt a b = true <-> (a < b)%Q.
Proof.
  unfold Js.lt. rewrite negb_true_iff. split.
  - intros H. apply Qnot_le_lt. intros Hle.
    apply Qle_bool_iff in Hle. congruence.
  - intros H. destruct (Qle_bool b a) eqn:E; [|reflexivity].
    apply Qle_bool_iff in E. exfalso. revert E. apply Qlt_not_le, H.
Qed.

Lemma lt_false a b : Js.lt a b = false <-> (b <= a)%Q.
Proof.
  unfold Js.lt. rewrite negb_false_iff. apply Qle_bool_iff.
Qed.

Lemma ge_spec a b : Js.ge a b = true <-> (b <= a)%Q.
Proof. apply Qle_bool_iff. Qed.

Lemma or_zero_some b : (Js.or_zero (Some b) == b)%Q.
Proof.
  unfold Js.or_zero. destruct (Qeq_bool b 0) eqn:E; [|reflexivity].
  apply Qeq_bool_iff in E. symmetry. exact E.
Qed.

Lemma includes_empty t : t <> "" -> Js.includes "" t = false.
Proof. destruct t; [congruence | reflexivity]. Qed.

End JsFacts.

(** ** Pricing *)

(** C9: the bonus schedule is a function of the payment amount alone (equal
    amounts get equal bonuses), and it is the table of the specification:
    50 from 5000 up, 15 from 2500 up, 5 from 1000 up, nothing below. *)
Theorem calculateBonusCredits_schedule (amount amount' : Q) :
  ((amount == amount')%Q ->
     calculateBonusCredits amount = calculateBonusCredits amount') /\
  ((5000 <= amount)%Q -> calculateBonusCredits amount = 50%Z) /\
  ((2500 <= amount)%Q /\ (amount < 5000)%Q ->
     calculateBonusCredits amount = 15%Z) /\
  ((1000 <= amount)%Q /\ (amount < 2500)%Q ->
     calculateBonusCredits amount = 5%Z) /\
  ((amount < 1000)%Q -> calculateBonusCredits amount = 0%Z).
Proof.
  unfold calculateBonusCredits, Js.ge.
  repeat split.
  - intros E.
    assert (forall c, Qle_bool c amount = Qle_bool c amount') as Hc
      by (intros c; now rewrite E).
    now rewrite !Hc.
  - intros H. apply Qle_bool_iff in H. now rewrite H.
  - intros [H1 H2].
    destruct (Qle_bool 5000 amount) eqn:E5.
    + apply Qle_bool_iff in E5. lra.
    + apply Qle_bool_iff in H1. now rewrite H1.
  - intros [H1 H2].
    destruct (Qle_bool 5000 amount) eqn:E5;
      [apply Qle_bool_iff in E5; lra|].
    destruct (Qle_bool 2500 amount) eqn:E2;
      [apply Qle_bool_iff in E2; lra|].
    apply Qle_bool_iff in H1. now rewrite H1.
  - intros H.
    destruct (Qle_bool 5000 amount) eqn:E5;
      [apply Qle_bool_iff in E5; lra|].
    destruct (Qle_bool 2500 amount) eqn:E2;
      [apply Qle_bool_iff in E2; lra|].
    destruct (Qle_bool 1000 amount) eqn:E1;
      [apply Qle_bool_iff in E1; lra|].
    reflexivity.
Qed.

Lemma calculateCreditCost_pos resolution n :
  (1 <= calculateCreditCost resolution n)%Z.
Proof.
  unfold calculateCreditCost.
  destruct (find _ RESOLUTIONS) as [r|] eqn:E; [|lia].
  apply find_some in E. destruct E as [Hin _].
  simpl in Hin.
  repeat (destruct Hin as [<-|Hin]; [simpl; lia|]).
  destruct Hin.
Qed.

Lemma rupees_spec c : (rupees c == inject_Z c * 25)%Q.
Proof. apply JsFacts.mul_spec. Qed.

Lemma rupees_pos resolution n :
  (0 < rupees (calculateCreditCost resolution n))%Q.
Proof.
  rewrite rupees_spec.
  pose proof (calculateCreditCost_pos resolution n) as H.
  assert (inject_Z 1 <= inject_Z (calculateCreditCost resolution n))%Q as H'
    by (rewrite <- Zle_Qle; exact H).
  change (inject_Z 1) with 1%Q in H'. lra.
Qed.

(** C8: the cost of a generation is the credit weight of its resolution
    ([RESOLUTIONS]): 1, 2, 2, 3 and 5 credits for the five tiers whatever
    the number of images (at least one), never less than one credit, and
    the rupee cost the handlers charge is 25 times that: 25, 50, 50, 75
    and 125 rupees. *)
Theorem calculateCreditCost_table (n : nat) (Hn : (1 <= n)%nat) :
  calculateCreditCost "1024x1024" n = 1%Z /\
  calculateCreditCost "1920x1080" n = 2%Z /\
  calculateCreditCost "1080x1920" n = 2%Z /\
  calculateCreditCost "2560x1440" n = 3%Z /\
  calculateCreditCost "3840x2160" n = 5%Z /\
  (forall resolution, (1 <= calculateCreditCost resolution n)%Z) /\
  (forall resolution m, (1 <= m)%nat ->
     calculateCreditCost resolution m = calculateCreditCost resolution n) /\
  (forall resolution,
     (rupees (calculateCreditCost resolution n)
      == inject_Z (calculateCreditCost resolution n) * 25)%Q) /\
  rupees (calculateCreditCost "1024x1024" n) = 25%Q /\
  rupees (calculateCreditCost "1920x1080" n) = 50%Q /\
  rupees (calculateCreditCost "1080x1920" n) = 50%Q /\
  rupees (calculateCreditCost "2560x1440" n) = 75%Q /\
  rupees (calculateCreditCost "3840x2160" n) = 125%Q.
Proof.
  repeat split; try reflexivity.
  - intros r. apply calculateCreditCost_pos.
  - intros r. apply rupees_spec.
Qed.

Lemma calculateCreditCost_table_witness :
  (1 <= 3)%nat /\ calculateCreditCost "3840x2160" 3 = 5%Z.
Proof.
  assert (1 <= 3)%nat as Hn by lia.
  split; [exact Hn|].
  destruct (calculateCreditCost_table 3 Hn) as (_ & _ & _ & _ & H & _).
  exact H.
Defined.

(** ** The webhook *)

Lemma verifyStripeSignature_nonempty payload signature secret :
  verifyStripeSignature payload signature secret = true -> signature <> "".
Proof.
  intros H ->. unfold verifyStripeSignature in H.
  rewrite JsFacts.includes_empty in H by congruence. discriminate.
Qed.

(** After the signature check the handler goes by the parsed event. *)
Lemma stripe_webhook_verified JSON_parse secret req signature :
  stripe_signature req = Some signature ->
  verifyStripeSignature (payload req) signature secret = true ->
  stripe_webhook JSON_parse secret req =
  match JSON_parse (payload req) with
  | None => Throw "Unexpected token in JSON"
  | Some event =>
      if String.eqb (event_type event) "checkout.session.completed" then
        match data_object event with
        | None =>
            Throw "Cannot read properties of undefined (reading 'metadata')"
        | Some session => credit_session session
        end
      else Return (json (ReceivedBody true) 200)
  end.
Proof.
  intros Hsig Hok. unfold stripe_webhook. rewrite Hsig.
  pose proof (verifyStripeSignature_nonempty _ _ _ Hok) as Hne.
  destruct signature as [|c s]; [congruence|].
  now rewrite Hok.
Qed.

(** C10: a validly signed payload that parses to an event of any type other
    than [checkout.session.completed] is answered [{received: true}] with
    status 200, whatever the database does, and every table is left as it
    was: no balance changes and no [wallet_transactions] row is added. *)
Theorem webhook_other_event_is_ignored
    (JSON_parse : string -> option StripeEvent) (secret : string)
    (fs : Faults) (req : WebhookRequest) (d : DB)
    (signature : string) (event : StripeEvent) :
  stripe_signature req = Some signature ->
  verifyStripeSignature (payload req) signature secret = true ->
  JSON_parse (payload req) = Some event ->
  event_type event <> "checkout.session.completed" ->
  post_webhook_stripe JSON_parse secret fs req d
  = (json (ReceivedBody true) 200, d).
Proof.
  intros Hsig Hok Hparse Hty.
  unfold post_webhook_stripe, route.
  rewrite (stripe_webhook_verified _ _ _ _ Hsig Hok), Hparse.
  apply String.eqb_neq in Hty. rewrite Hty. reflexivity.
Qed.

Lemma webhook_other_event_is_ignored_witness :
  post_webhook_stripe Scenario.parse Scenario.secret []
    (Scenario.delivery "refund") (Scenario.fresh 100)
  = (json (ReceivedBody true) 200, Scenario.fresh 100).
Proof.
  apply (webhook_other_event_is_ignored Scenario.parse Scenario.secret []
           (Scenario.delivery "refund") (Scenario.fresh 100)
           "t=1700000000,v1=5257a869" Scenario.refund).
  - reflexivity.
  - reflexivity.
  - reflexivity.
  - discriminate.
Defined.

(** ** Statements and the tables *)

Lemma balance_of_lookup d id u :
  users d !! id = Some u -> balance_of d id = Some (wallet_balance u).
Proof. unfold balance_of. now intros ->. Qed.

Lemma balance_of_missing d id :
  users d !! id = None -> balance_of d id = None.
Proof. unfold balance_of. now intros ->. Qed.

Lemma lookup_update_to b id d u :
  users d !! id = Some u ->
  users (exec (UpdateBalanceTo b id) d) !! id = Some (set_balance b u).
Proof. intros H. simpl. rewrite lookup_alter_eq, H. reflexivity. Qed.


Lemma lookup_update_by delta id d u :
  users d !! id = Some u ->
  users (exec (UpdateBalanceBy delta id) d) !! id
  = Some (set_balance (Js.add (wallet_balance u) delta) u).
Proof. intros H. simpl. rewrite lookup_alter_eq, H. reflexivity. Qed.

Lemma lookup_update_by_ne delta id id' d :
  id <> id' ->
  users (exec (UpdateBalanceBy delta id) d) !! id' = users d !! id'.
Proof. intros H. simpl. now rewrite lookup_alter_ne. Qed.

Lemma lookup_update_to_inv b id id' d u' :
  users (exec (UpdateBalanceTo b id) d) !! id' = Some u' ->
  exists u, users d !! id' = Some u /\
    u' = (if decide (id = id') then set_balance b u else u).
Proof.
  simpl. destruct (decide (id = id')) as [->|Hne].
  - rewrite lookup_alter_eq. destruct (users d !! id') as [u|]; [|discriminate].
    intros [= <-]. eauto.
  - rewrite lookup_alter_ne by exact Hne. eauto.
Qed.

Lemma lookup_update_by_inv delta id id' d u' :
  users (exec (UpdateBalanceBy delta id) d) !! id' = Some u' ->
  exists u, users d !! id' = Some u /\
    u' = (if decide (id = id')
          then set_balance (Js.add (wallet_balance u) delta) u else u).
Proof.
  simpl. destruct (decide (id = id')) as [->|Hne].
  - rewrite lookup_alter_eq. destruct (users d !! id') as [u|]; [|discriminate].
    intros [= <-]. eauto.
  - rewrite lookup_alter_ne by exact Hne. eauto.
Qed.

(** ** A completed checkout *)

(** What one delivery of a completed checkout does to a database that
    answers every call: one UPDATE and one INSERT. *)
Lemma checkout_delivery JSON_parse secret req signature event session md d :
  stripe_signature req = Some signature ->
  verifyStripeSignature (payload req) signature secret = true ->
  JSON_parse (payload req) = Some event ->
  event_type event = "checkout.session.completed" ->
  data_object event = Some session ->
  metadata session = Some md ->
  let userId := md_user_id md in
  let amount := Js.div (amount_total session) 100 in
  let credits := Js.floor (Js.div amount 25) in
  let newBalance := Js.add (Js.or_zero (balance_of d userId)) amount in
  post_webhook_stripe JSON_parse secret [] req d
  = (json (ReceivedBody true) 200,
     exec (InsertTransaction
             {| user_id := userId; type := topup; amount := amount;
                credits_added := Some credits;
                balance_after := Some newBalance;
                payment_gateway_id := Some (session_id session);
                description :=
                  "Payment completed - " +:+ Js.show credits +:+
                  " credits added" |})
       (exec (UpdateBalanceTo newBalance userId) d)).
Proof.
  intros Hsig Hok Hparse Hty Hobj Hmd. cbv zeta.
  unfold post_webhook_stripe, route.
  rewrite (stripe_webhook_verified _ _ _ _ Hsig Hok), Hparse, Hty, Hobj.
  unfold credit_session. rewrite Hmd. reflexivity.
Qed.

(** The balance and the ledger after one delivery, for a user that has a
    row in [users]. *)
Lemma checkout_delivery_effect
    JSON_parse secret req signature event session md d u :
  stripe_signature req = Some signature ->
  verifyStripeSignature (payload req) signature secret = true ->
  JSON_parse (payload req) = Some event ->
  event_type event = "checkout.session.completed" ->
  data_object event = Some session ->
  metadata session = Some md ->
  users d !! md_user_id md = Some u ->
  let amount := Js.div (amount_total session) 100 in
  let result := post_webhook_stripe JSON_parse secret [] req d in
  fst result = json (ReceivedBody true) 200 /\
  (exists newBalance,
      (newBalance == wallet_balance u + amount_total session / 100)%Q /\
      users (snd result) !! md_user_id md = Some (set_balance newBalance u) /\
      wallet_transactions (snd result)
      = wallet_transactions d ++
        [ {| user_id := md_user_id md; type := topup; amount := amount;
             credits_added := Some (Js.floor (Js.div amount 25));
             balance_after := Some newBalance;
             payment_gateway_id := Some (session_id session);
             description :=
               "Payment completed - " +:+
               Js.show (Js.floor (Js.div amount 25)) +:+ " credits added" |} ]).
Proof.
  intros Hsig Hok Hparse Hty Hobj Hmd Hu. cbv zeta.
  rewrite (checkout_delivery _ _ _ _ _ _ _ d Hsig Hok Hparse Hty Hobj Hmd).
  cbn [fst snd]. split; [reflexivity|].
  rewrite (balance_of_lookup _ _ _ Hu).
  eexists. split; [|split; [|reflexivity]].
  - rewrite JsFacts.add_spec, JsFacts.or_zero_some, JsFacts.div_spec.
    reflexivity.
  - cbn [exec add_transaction users]. apply (lookup_update_to _ _ _ _ Hu).
Qed.

(** C7, as the code has it: a validly signed, completed checkout of 1000
    rupees appends exactly one ledger row, a [topup] of 1000 carrying 40
    credits and the session id as gateway reference, and the balance ends
    at the prior balance plus 1000.  The handler never writes a [bonus]
    row. *)
Theorem checkout_1000_appends_one_topup
    (JSON_parse : string -> option StripeEvent) (secret : string)
    (req : WebhookRequest) (signature : string) (event : StripeEvent)
    (session : Session) (md : Metadata) (d : DB) (u : User) :
  stripe_signature req = Some signature ->
  verifyStripeSignature (payload req) signature secret = true ->
  JSON_parse (payload req) = Some event ->
  event_type event = "checkout.session.completed" ->
  data_object event = Some session ->
  metadata session = Some md ->
  (amount_total session == 100000)%Q ->
  users d !! md_user_id md = Some u ->
  let result := post_webhook_stripe JSON_parse secret [] req d in
  fst result = json (ReceivedBody true) 200 /\
  exists row u',
    wallet_transactions (snd result) = wallet_transactions d ++ [row] /\
    user_id row = md_user_id md /\
    type row = topup /\
    amount row = 1000%Q /\
    credits_added row = Some 40%Z /\
    payment_gateway_id row = Some (session_id session) /\
    snapshot_is row (wallet_balance u + 1000) /\
    users (snd result) !! md_user_id md = Some u' /\
    (wallet_balance u' == wallet_balance u + 1000)%Q.
Proof.
  intros Hsig Hok Hparse Hty Hobj Hmd Hamt Hu result.
  destruct (checkout_delivery_effect _ _ _ _ _ _ _ _ _
              Hsig Hok Hparse Hty Hobj Hmd Hu)
    as (Hres & nb & Hnb & Hlook & Hrows).
  fold result in Hres, Hlook, Hrows.
  assert (Js.div (amount_total session) 100 = 1000%Q) as Ha.
  { unfold Js.div.
    change 1000%Q with (Qred (100000 / 100)).
    apply Qred_complete. now rewrite Hamt. }
  rewrite Ha in Hrows.
  assert (nb == wallet_balance u + 1000)%Q as Hnb'.
  { rewrite Hnb, Hamt. field. }
  split; [exact Hres|].
  eexists _, _. split; [exact Hrows|].
  cbn [user_id type amount credits_added payment_gateway_id].
  repeat split; try reflexivity.
  - exact Hnb'.
  - exact Hlook.
  - exact Hnb'.
Qed.

Lemma checkout_1000_appends_one_topup_witness :
  fst (post_webhook_stripe Scenario.parse Scenario.secret []
         (Scenario.delivery "checkout") (Scenario.fresh 200))
  = json (ReceivedBody true) 200.
Proof.
  apply (checkout_1000_appends_one_topup Scenario.parse Scenario.secret
           (Scenario.delivery "checkout") "t=1700000000,v1=5257a869"
           Scenario.checkout_1000
           {| session_id := "cs_test_a1B2";
              metadata := Some {| md_user_id := "user_1" |};
              amount_total := 100000 |}
           {| md_user_id := "user_1" |}
           (Scenario.fresh 200)
           {| email := "alice@example.com"; wallet_balance := 200 |});
    reflexivity.
Defined.

(** C7, as the claim has it, fails: after the 1000-rupee checkout on a
    balance of 200 the ledger holds one row, not two, none of type [bonus],
    and the balance is 1200, not 1200 plus a bonus. *)
Lemma checkout_1000_no_bonus_row :
  let d := snd (post_webhook_stripe Scenario.parse Scenario.secret []
                  (Scenario.delivery "checkout") (Scenario.fresh 200)) in
  wallet_transactions d
  = [ {| user_id := "user_1"; type := topup; amount := 1000;
         credits_added := Some 40%Z; balance_after := Some 1200%Q;
         payment_gateway_id := Some "cs_test_a1B2";
         description := "Payment completed - 40 credits added" |} ] /\
  balance_of d "user_1" = Some 1200%Q /\
  calculateBonusCredits 1000 = 5%Z.
Proof. vm_compute. repeat split. Qed.

(** C1, as the code has it: the handler never looks a gateway reference up.
    Delivering the same completed checkout twice is answered
    [{received: true}] both times and credits the user twice: two [topup]
    rows with the same amount and the same [payment_gateway_id] are
    appended, and the balance grows by twice the amount. *)
Theorem checkout_redelivery_credits_twice
    (JSON_parse : string -> option StripeEvent) (secret : string)
    (req : WebhookRequest) (signature : string) (event : StripeEvent)
    (session : Session) (md : Metadata) (d : DB) (u : User) :
  stripe_signature req = Some signature ->
  verifyStripeSignature (payload req) signature secret = true ->
  JSON_parse (payload req) = Some event ->
  event_type event = "checkout.session.completed" ->
  data_object event = Some session ->
  metadata session = Some md ->
  users d !! md_user_id md = Some u ->
  let first := post_webhook_stripe JSON_parse secret [] req d in
  let second := post_webhook_stripe JSON_parse secret [] req (snd first) in
  fst first = json (ReceivedBody true) 200 /\
  fst second = json (ReceivedBody true) 200 /\
  exists row1 row2 u2,
    wallet_transactions (snd second)
    = wallet_transactions d ++ [row1; row2] /\
    type row1 = topup /\ type row2 = topup /\
    amount row1 = Js.div (amount_total session) 100 /\
    amount row2 = Js.div (amount_total session) 100 /\
    payment_gateway_id row1 = Some (session_id session) /\
    payment_gateway_id row2 = Some (session_id session) /\
    users (snd second) !! md_user_id md = Some u2 /\
    (wallet_balance u2
     == wallet_balance u + 2 * (amount_total session / 100))%Q.
Proof.
  intros Hsig Hok Hparse Hty Hobj Hmd Hu first second.
  destruct (checkout_delivery_effect _ _ _ _ _ _ _ _ _
              Hsig Hok Hparse Hty Hobj Hmd Hu)
    as (Hres1 & nb1 & Hnb1 & Hlook1 & Hrows1).
  fold first in Hres1, Hlook1, Hrows1.
  destruct (checkout_delivery_effect _ _ _ _ _ _ _ _ _
              Hsig Hok Hparse Hty Hobj Hmd Hlook1)
    as (Hres2 & nb2 & Hnb2 & Hlook2 & Hrows2).
  fold second in Hres2, Hlook2, Hrows2.
  split; [exact Hres1|]. split; [exact Hres2|].
  eexists _, _, _. split.
  { rewrite Hrows2, Hrows1, <- app_assoc. reflexivity. }
  cbn [type amount payment_gateway_id].
  repeat split; try reflexivity.
  - exact Hlook2.
  - cbn [set_balance wallet_balance] in *. rewrite Hnb2, Hnb1. ring.
Qed.

Lemma checkout_redelivery_credits_twice_witness :
  fst (post_webhook_stripe Scenario.parse Scenario.secret []
         (Scenario.delivery "checkout")
         (snd (post_webhook_stripe Scenario.parse Scenario.secret []
                 (Scenario.delivery "checkout") (Scenario.fresh 0))))
  = json (ReceivedBody true) 200.
Proof.
  apply (checkout_redelivery_credits_twice Scenario.parse Scenario.secret
           (Scenario.delivery "checkout") "t=1700000000,v1=5257a869"
           Scenario.checkout_1000
           {| session_id := "cs_test_a1B2";
              metadata := Some {| md_user_id := "user_1" |};
              amount_total := 100000 |}
           {| md_user_id := "user_1" |}
           (Scenario.fresh 0)
           {| email := "alice@example.com"; wallet_balance := 0 |});
    reflexivity.
Defined.

(** C1, as the claim has it, fails: the second delivery of the checkout
    with gateway reference [cs_test_a1B2] is not a no-op.  The balance goes
    from 1000 to 2000 and a second row with the same reference is
    appended. *)
Lemma checkout_redelivery_not_noop :
  let first := post_webhook_stripe Scenario.parse Scenario.secret []
                 (Scenario.delivery "checkout") (Scenario.fresh 0) in
  let second := post_webhook_stripe Scenario.parse Scenario.secret []
                  (Scenario.delivery "checkout") (snd first) in
  balance_of (snd first) "user_1" = Some 1000%Q /\
  map payment_gateway_id (wallet_transactions (snd first))
  = [Some "cs_test_a1B2"] /\
  fst second = json (ReceivedBody true) 200 /\
  balance_of (snd second) "user_1" = Some 2000%Q /\
  map payment_gateway_id (wallet_transactions (snd second))
  = [Some "cs_test_a1B2"; Some "cs_test_a1B2"] /\
  snd second <> snd first.
Proof.
  vm_compute. repeat split. intros H. discriminate H.
Qed.

(** ** Generation requests *)

Lemma nonempty_length {A} (l : list A) : l <> [] -> (length l =? 0)%nat = false.
Proof. destruct l; [congruence | reflexivity]. Qed.

(** The fast-path rejection: the balance read is below the cost. *)
Lemma post_generate_insufficient fs user req w d :
  productImages req <> [] ->
  fst (next_fault fs) = None ->
  let rupeesCost :=
    rupees (calculateCreditCost (resolution req) (length (productImages req))) in
  let currentBalance := Js.or_zero (balance_of d (auth_id user)) in
  Js.lt currentBalance rupeesCost = true ->
  post_generate fs (Some user) req w d
  = (json (InsufficientBody "Insufficient wallet balance"
             rupeesCost currentBalance) 400, d).
Proof.
  intros Himg Hfs rupeesCost currentBalance Hlt.
  unfold post_generate, route, generate.
  rewrite (nonempty_length _ Himg). cbn [run].
  destruct (next_fault fs) as [[e|] fs'] eqn:E; [discriminate Hfs|].
  fold rupeesCost currentBalance. rewrite Hlt. reflexivity.
Qed.

(** The other branch: the balance read covers the cost, and every call is
    answered. *)
Lemma post_generate_sufficient user req w d :
  productImages req <> [] ->
  let creditCost :=
    calculateCreditCost (resolution req) (length (productImages req)) in
  let rupeesCost := rupees creditCost in
  let currentBalance := Js.or_zero (balance_of d (auth_id user)) in
  let newBalance := Js.sub currentBalance rupeesCost in
  let enhancedPrompt :=
    enhanceProductPrompt (prompt req) (generationType req) (resolution req) in
  let imageUrl :=
    generateImageWithGoogle w enhancedPrompt (resolution req)
      (productImages req) in
  let result := post_generate [] (Some user) req w d in
  Js.lt currentBalance rupeesCost = false ->
  fst result
  = json (GeneratedBody (generationId w) imageUrl creditCost newBalance
            enhancedPrompt) 200 /\
  users (snd result) = alter (set_balance newBalance) (auth_id user) (users d) /\
  wallet_transactions (snd result)
  = wallet_transactions d ++
    [ {| user_id := auth_id user; type := deduct; amount := rupeesCost;
         credits_added := Some 0%Z; balance_after := Some newBalance;
         payment_gateway_id := None;
         description :=
           "Image generation - " +:+ resolution req +:+ " - " +:+
           Js.show creditCost +:+ " credits" |} ] /\
  (exists usage,
      credit_usage (snd result) = credit_usage d ++ [usage] /\
      cu_user_id usage = auth_id user /\
      cu_generation_id usage = generationId w /\
      cu_credits_consumed usage = creditCost /\
      cu_image_url usage = imageUrl /\
      cu_cost_in_rupees usage = rupeesCost) /\
  (exists image,
      generated_images (snd result) = generated_images d ++ [image] /\
      gi_id image = generationId w /\
      gi_user_id image = auth_id user /\
      gi_image_url image = imageUrl /\
      gi_credits_used image = creditCost).
Proof.
  intros Himg creditCost rupeesCost currentBalance newBalance enhancedPrompt
    imageUrl result Hlt.
  unfold result, post_generate, route, generate.
  rewrite (nonempty_length _ Himg). cbn [run next_fault].
  fold creditCost rupeesCost currentBalance. rewrite Hlt.
  cbn [run next_fault fst snd exec add_transaction with_users users
       wallet_transactions credit_usage generated_images].
  repeat split; eexists; repeat split.
Qed.

Lemma balance_covers_cost (b cost : Q) :
  (cost <= b)%Q -> Js.lt (Js.or_zero (Some b)) cost = false.
Proof.
  intros H. apply JsFacts.lt_false. now rewrite JsFacts.or_zero_some.
Qed.

Lemma balance_below_cost (b cost : Q) :
  (b < cost)%Q -> Js.lt (Js.or_zero (Some b)) cost = true.
Proof.
  intros H. apply JsFacts.lt_spec. now rewrite JsFacts.or_zero_some.
Qed.

(** A user without a row in [users] reads as a zero balance and is always
    turned away: every generation costs at least 25 rupees. *)
Lemma generate_unknown_user_rejected fs user req w d :
  productImages req <> [] ->
  fst (next_fault fs) = None ->
  users d !! auth_id user = None ->
  post_generate fs (Some user) req w d
  = (json (InsufficientBody "Insufficient wallet balance"
             (rupees (calculateCreditCost (resolution req)
                        (length (productImages req)))) 0) 400, d).
Proof.
  intros Himg Hfs Hu.
  pose proof (post_generate_insufficient fs user req w d Himg Hfs) as H.
  cbv zeta in H. rewrite (balance_of_missing _ _ Hu) in H.
  apply H. apply JsFacts.lt_spec. apply rupees_pos.
Qed.

(** C3, as the code has it: whenever the rupee cost of a generation request
    is strictly greater than the user's wallet balance, [POST /api/generate]
    answers 400 [Insufficient wallet balance] with the required and the
    current amount, and leaves every table as it was: no balance changes
    and no row is appended.  The check is made by the route handler before
    it calls the image provider. *)
Theorem generate_rejects_insufficient_balance
    (fs : Faults) (user : AuthUser) (req : GenerationRequest) (w : World)
    (d : DB) (u : User) :
  productImages req <> [] ->
  fst (next_fault fs) = None ->
  users d !! auth_id user = Some u ->
  let required :=
    rupees (calculateCreditCost (resolution req) (length (productImages req))) in
  (wallet_balance u < required)%Q ->
  exists current,
    (current == wallet_balance u)%Q /\
    post_generate fs (Some user) req w d
    = (json (InsufficientBody "Insufficient wallet balance" required current)
         400, d).
Proof.
  intros Himg Hfs Hu required Hlt.
  exists (Js.or_zero (Some (wallet_balance u))).
  split; [apply JsFacts.or_zero_some|].
  rewrite <- (balance_of_lookup _ _ _ Hu).
  apply post_generate_insufficient; [exact Himg | exact Hfs |].
  rewrite (balance_of_lookup _ _ _ Hu). now apply balance_below_cost.
Qed.

Lemma generate_rejects_insufficient_balance_witness :
  exists current,
    (current == 40)%Q /\
    post_generate [] (Some Scenario.alice) Scenario.landscape
      Scenario.imagen_up (Scenario.fresh 40)
    = (json (InsufficientBody "Insufficient wallet balance" 50 current) 400,
       Scenario.fresh 40).
Proof.
  apply (generate_rejects_insufficient_balance [] Scenario.alice
           Scenario.landscape Scenario.imagen_up (Scenario.fresh 40)
           {| email := "alice@example.com"; wallet_balance := 40 |}).
  - discriminate.
  - reflexivity.
  - reflexivity.
  - reflexivity.
Defined.

(** C3, as the claim has it, fails on the ledger's own write:
    [updateWalletBalance] makes no sufficiency check.  A debit of 100
    against a balance of 50 goes through, leaves the balance at -50 and
    appends a [deduct] row. *)
Lemma updateWalletBalance_overdraws :
  let result :=
    run [] (updateWalletBalance "user_1" (-100) "Image generation")
      (Scenario.fresh 50) in
  fst result = inr tt /\
  balance_of (snd result) "user_1" = Some (-50)%Q /\
  wallet_transactions (snd result)
  = [ {| user_id := "user_1"; type := deduct; amount := 100;
         credits_added := None; balance_after := Some (-50)%Q;
         payment_gateway_id := None; description := "Image generation" |} ].
Proof. vm_compute. repeat split. Qed.

Lemma generateImageWithGoogle_fallback w prompt resolution images e :
  imagen w = Rejected e ->
  generateImageWithGoogle w prompt resolution images
  = "https://picsum.photos/" +:+ Js.element (Js.split_x resolution) 0 +:+
    "/" +:+ Js.element (Js.split_x resolution) 1 +:+ "?random=" +:+
    Js.show (fallback_now w).
Proof. unfold generateImageWithGoogle. now intros ->. Qed.

(** C2, as the code has it: when the provider call fails,
    [generateImageWithGoogle] catches the error and returns a placeholder
    URL, so the flow does not abort.  The request is answered 200 with the
    placeholder, the balance is debited by the rupee cost, one [deduct] row
    is appended, and one [credit_usage] and one [generated_images] record
    are created, both pointing at the placeholder. *)
Theorem generate_provider_failure_is_charged
    (user : AuthUser) (req : GenerationRequest) (w : World) (d : DB)
    (u : User) (e : string) :
  productImages req <> [] ->
  users d !! auth_id user = Some u ->
  imagen w = Rejected e ->
  let creditCost :=
    calculateCreditCost (resolution req) (length (productImages req)) in
  let placeholder :=
    "https://picsum.photos/" +:+ Js.element (Js.split_x (resolution req)) 0 +:+
    "/" +:+ Js.element (Js.split_x (resolution req)) 1 +:+ "?random=" +:+
    Js.show (fallback_now w) in
  let result := post_generate [] (Some user) req w d in
  (rupees creditCost <= wallet_balance u)%Q ->
  (exists newBalance enhancedPrompt,
      fst result
      = json (GeneratedBody (generationId w) placeholder creditCost
                newBalance enhancedPrompt) 200) /\
  (exists u',
      users (snd result) !! auth_id user = Some u' /\
      (wallet_balance u' == wallet_balance u - rupees creditCost)%Q) /\
  (exists row,
      wallet_transactions (snd result) = wallet_transactions d ++ [row] /\
      user_id row = auth_id user /\
      type row = deduct /\
      amount row = rupees creditCost /\
      snapshot_is row (wallet_balance u - rupees creditCost)) /\
  (exists usage,
      credit_usage (snd result) = credit_usage d ++ [usage] /\
      cu_image_url usage = placeholder) /\
  (exists image,
      generated_images (snd result) = generated_images d ++ [image] /\
      gi_image_url image = placeholder).
Proof.
  intros Himg Hu Hw creditCost placeholder result Hle.
  pose proof (balance_covers_cost _ _ Hle) as Hcheck.
  rewrite <- (balance_of_lookup _ _ _ Hu) in Hcheck.
  destruct (post_generate_sufficient user req w d Himg Hcheck)
    as (Hres & Husers & Hrows & (usage & Hcu & _ & _ & _ & Hcu_url & _)
        & (image & Hgi & _ & _ & Hgi_url & _)).
  fold result creditCost in Hres, Husers, Hrows, Hcu, Hgi.
  rewrite (generateImageWithGoogle_fallback _ _ _ _ _ Hw) in Hres, Hcu_url, Hgi_url.
  fold placeholder in Hres, Hcu_url, Hgi_url.
  assert (Js.sub (Js.or_zero (balance_of d (auth_id user))) (rupees creditCost)
          == wallet_balance u - rupees creditCost)%Q as Hnb.
  { rewrite JsFacts.sub_spec, (balance_of_lookup _ _ _ Hu),
      JsFacts.or_zero_some. reflexivity. }
  split; [eexists _, _; exact Hres|].
  split.
  { eexists. split.
    - rewrite Husers, lookup_alter_eq, Hu. reflexivity.
    - exact Hnb. }
  split.
  { eexists. split; [exact Hrows|].
    cbn [user_id type amount]. repeat split. exact Hnb. }
  split; [exists usage | exists image]; split; assumption.
Qed.

Lemma generate_provider_failure_is_charged_witness :
  exists row,
    wallet_transactions
      (snd (post_generate [] (Some Scenario.alice) Scenario.landscape
              Scenario.imagen_down (Scenario.fresh 100)))
    = wallet_transactions (Scenario.fresh 100) ++ [row] /\
    user_id row = "user_1" /\
    type row = deduct /\
    amount row = 50%Q /\
    snapshot_is row (100 - 50).
Proof.
  assert (productImages Scenario.landscape <> []) as Himg by discriminate.
  assert ((Qnum 50 * QDen 100 <= Qnum 100 * QDen 50)%Z) as Hle
    by (vm_compute; discriminate).
  destruct (generate_provider_failure_is_charged Scenario.alice
              Scenario.landscape Scenario.imagen_down (Scenario.fresh 100)
              {| email := "alice@example.com"; wallet_balance := 100 |}
              "Failed to generate image with Google Imagen"
              Himg eq_refl eq_refl Hle)
    as (_ & _ & Hrow & _).
  exact Hrow.
Defined.

(** C2, as the claim has it, fails: with the provider down, a request for
    one 1920x1080 image on a balance of 100 is answered 200, the balance
    drops to 50, and a ledger row, a usage record and an image record are
    written for the placeholder. *)
Lemma generate_provider_failure_not_aborted :
  let result :=
    post_generate [] (Some Scenario.alice) Scenario.landscape
      Scenario.imagen_down (Scenario.fresh 100) in
  status (fst result) = 200%Z /\
  balance_of (snd result) "user_1" = Some 50%Q /\
  map (fun t => (type t, amount t)) (wallet_transactions (snd result))
  = [(deduct, 50%Q)] /\
  map cu_image_url (credit_usage (snd result))
  = ["https://picsum.photos/1920/1080?random=1700000000000"] /\
  map gi_image_url (generated_images (snd result))
  = ["https://picsum.photos/1920/1080?random=1700000000000"].
Proof. vm_compute. repeat split. Qed.

(** ** The ledger invariant *)

Lemma replay_snoc rows t : replay (rows ++ [t]) = (replay rows + signed t)%Q.
Proof. unfold replay. now rewrite fold_left_app. Qed.

Lemma ledger_of_snoc id rows t :
  ledger_of id (rows ++ [t])
  = ledger_of id rows ++ (if decide (user_id t = id) then [t] else []).
Proof.
  unfold ledger_of. rewrite filter_app. reflexivity.
Qed.

Lemma snapshot_is_proper t q q' : (q == q')%Q -> snapshot_is t q -> snapshot_is t q'.
Proof.
  unfold snapshot_is. intros E. destruct (balance_after t); [|trivial].
  intros H. now rewrite H.
Qed.

Lemma snapshots_ok_nil : snapshots_ok [].
Proof. intros n t H. rewrite lookup_nil in H. discriminate. Qed.

Lemma snapshots_ok_snoc rows t :
  snapshots_ok rows ->
  snapshot_is t (replay (rows ++ [t])) ->
  snapshots_ok (rows ++ [t]).
Proof.
  intros Hrows Ht n t' Hn.
  destruct (decide (n < length rows)%nat) as [Hlt|Hge].
  - rewrite lookup_app_l in Hn by exact Hlt.
    rewrite take_app_le by lia. now apply Hrows.
  - apply lookup_lt_Some in Hn as Hlen. rewrite length_app in Hlen.
    simpl in Hlen. assert (n = length rows) as -> by lia.
    rewrite list_lookup_middle in Hn by reflexivity.
    injection Hn as <-.
    rewrite take_ge by (rewrite length_app; simpl; lia). exact Ht.
Qed.


(** Users created with a zero balance and no ledger row. *)
Lemma consistent_fresh d :
  wallet_transactions d = [] ->
  (forall id u, users d !! id = Some u -> (wallet_balance u == 0)%Q) ->
  consistent d.
Proof.
  intros Hrows Hzero id u Hu. rewrite Hrows. split.
  - now apply (Hzero id).
  - apply snapshots_ok_nil.
Qed.

(** One balance moved by [delta] together with one appended row of the
    same signed amount that carries the new balance. *)
Lemma consistent_entry d d' id row delta :
  consistent d ->
  wallet_transactions d' = wallet_transactions d ++ [row] ->
  user_id row = id ->
  (signed row == delta)%Q ->
  (forall id', id' <> id -> users d' !! id' = users d !! id') ->
  (forall u', users d' !! id = Some u' ->
     exists u, users d !! id = Some u /\
       (wallet_balance u' == wallet_balance u + delta)%Q /\
       snapshot_is row (wallet_balance u')) ->
  consistent d'.
Proof.
  intros Hd Hrows Hid Hsigned Hothers Hself id' u' Hu'.
  rewrite Hrows, ledger_of_snoc.
  destruct (decide (user_id row = id')) as [Heq|Hne].
  - assert (id' = id) as -> by congruence.
    destruct (Hself _ Hu') as (u & Hu & Hbal & Hsnap).
    destruct (Hd _ _ Hu) as [Hreplay Hsnaps].
    assert (wallet_balance u'
            == replay (ledger_of id (wallet_transactions d) ++ [row]))%Q as E.
    { rewrite replay_snoc, Hbal, Hreplay, Hsigned. reflexivity. }
    split; [exact E|].
    apply snapshots_ok_snoc; [exact Hsnaps|].
    apply (snapshot_is_proper _ _ _ E), Hsnap.
  - rewrite app_nil_r. apply Hd.
    rewrite <- Hothers; [exact Hu'|]. congruence.
Qed.

Lemma signed_updateWalletBalance id amt descr snapshot :
  (signed {| user_id := id;
             type := (if Js.lt 0 amt then topup else deduct);
             amount := Js.abs amt; credits_added := None;
             balance_after := snapshot; payment_gateway_id := None;
             description := descr |} == amt)%Q.
Proof.
  unfold signed, Js.abs. cbn [type amount].
  destruct (Js.lt 0 amt) eqn:E.
  - apply JsFacts.lt_spec in E. apply Qabs_pos. lra.
  - apply JsFacts.lt_false in E. rewrite (Qabs_neg _ E). ring.
Qed.




Lemma updateWalletBalance_consistent userId amt descr d :
  consistent d ->
  consistent (snd (run [] (updateWalletBalance userId amt descr) d)).
Proof.
  intros Hd. unfold updateWalletBalance.
  cbn [run batch_fault next_fault length snd exec_all fold_left].
  eapply (consistent_entry d _ userId _ amt Hd).
  - reflexivity.
  - reflexivity.
  - apply signed_updateWalletBalance.
  - intros id' Hne. cbn [exec add_transaction users].
    apply (lookup_update_by_ne amt userId id' d). congruence.
  - intros u' Hu'. cbn [exec add_transaction users] in Hu'.
    pose proof Hu' as Hlook.
    apply (lookup_update_by_inv amt userId userId d) in Hu' as (u & Hu & ->).
    rewrite decide_True by reflexivity.
    exists u. split; [exact Hu|].
    cbn [set_balance wallet_balance].
    split; [apply JsFacts.add_spec|].
    unfold snapshot_is. cbn [balance_after].
    rewrite (balance_of_lookup _ _ _ (lookup_update_by amt userId d u Hu)).
    reflexivity.
Qed.






(** ** Failing statements *)

(** [updateWalletBalance] is one batch: either both statements took effect
    or the database is as it was. *)
Lemma updateWalletBalance_all_or_nothing fs userId amt descr d :
  let result := run fs (updateWalletBalance userId amt descr) d in
  (fst result = inr tt /\
   snd result
   = exec (InsertTransactionSnapshot userId
             (if Js.lt 0 amt then topup else deduct) (Js.abs amt) userId descr)
       (exec (UpdateBalanceBy amt userId) d)) \/
  (exists e, fst result = inl e /\ snd result = d).
Proof.
  unfold updateWalletBalance. cbn [run length].
  destruct (batch_fault 2 fs) as [[e|] fs'].
  - right. exists e. split; reflexivity.
  - left. split; reflexivity.
Qed.

(** The generation handler under a rejected ledger INSERT: the UPDATE before
    it stays in place and the handler's [catch] answers 500. *)
Lemma post_generate_insert_rejected user req w d e :
  productImages req <> [] ->
  let rupeesCost :=
    rupees (calculateCreditCost (resolution req) (length (productImages req))) in
  let currentBalance := Js.or_zero (balance_of d (auth_id user)) in
  Js.lt currentBalance rupeesCost = false ->
  post_generate [None; None; Some e] (Some user) req w d
  = (json (ErrorBody e) 500,
     exec (UpdateBalanceTo (Js.sub currentBalance rupeesCost) (auth_id user)) d).
Proof.
  intros Himg rupeesCost currentBalance Hcheck.
  unfold post_generate, route, generate.
  rewrite (nonempty_length _ Himg). cbn [run next_fault].
  fold rupeesCost currentBalance. rewrite Hcheck. reflexivity.
Qed.

(** C5: in [index.ts] the balance UPDATE and the ledger INSERT are two
    separate awaited statements.  When the database rejects the INSERT of
    the generation handler (its third call, after the SELECT and the
    UPDATE), the request is answered 500, the balance has already dropped
    from 100 to 50 and no ledger row exists; likewise a rejected INSERT in
    the webhook leaves 1000 rupees credited with an empty ledger. *)
Theorem index_handlers_write_in_two_steps :
  let generated :=
    post_generate [None; None; Some "D1_ERROR: Network connection lost"]
      (Some Scenario.alice) Scenario.landscape Scenario.imagen_up
      (Scenario.fresh 100) in
  let credited :=
    post_webhook_stripe Scenario.parse Scenario.secret
      [None; None; Some "D1_ERROR: Network connection lost"]
      (Scenario.delivery "checkout") (Scenario.fresh 0) in
  (fst generated = json (ErrorBody "D1_ERROR: Network connection lost") 500 /\
   balance_of (snd generated) "user_1" = Some 50%Q /\
   wallet_transactions (snd generated) = []) /\
  (fst credited = json (ErrorBody "Webhook processing failed") 500 /\
   balance_of (snd credited) "user_1" = Some 1000%Q /\
   wallet_transactions (snd credited) = []).
Proof. vm_compute. repeat split. Qed.

(** ** Two debits in flight *)

Lemma batch_fault_nil n : batch_fault n [] = (None, []).
Proof. induction n as [|n IH]; [reflexivity | exact IH]. Qed.

(** Running a body to its end is making its calls one by one. *)
Lemma run_step {R} (h : Handler R) (d : DB) :
  run [] h d = run [] (fst (step h d)) (snd (step h d)).
Proof.
  destruct h; try reflexivity.
  cbn [run step fst snd]. now rewrite batch_fault_nil.
Qed.

(** A schedule that lets the first request finish before the second starts
    is the two requests run one after the other. *)
Lemma interleave_first_only {R} (n : nat) (h1 h2 : Handler R) (d : DB) r1 d1 :
  interleave (repeat true n) h1 h2 d = (Return r1, h2, d1) ->
  run [] h1 d = (inr r1, d1).
Proof.
  revert h1 d. induction n as [|n IH]; intros h1 d; cbn [repeat interleave].
  - intros [= -> ->]. reflexivity.
  - destruct (step h1 d) as [h1' d'] eqn:E. intros H.
    rewrite run_step, E. cbn [fst snd]. now apply IH.
Qed.

(** *** Bodies that only write *)

Lemma writes_cons {R} s ss (r : R) : writes (s :: ss) r = Run s (writes ss r).
Proof. reflexivity. Qed.

(** Two bodies that only write, interleaved until both are done, run their
    statements in the order the schedule merges them. *)
Lemma interleave_writes {R} schedule (l1 l2 : list Statement) (r1 r2 : R) d :
  (length l1 <= turns true schedule)%nat ->
  (length l2 <= turns false schedule)%nat ->
  interleave schedule (writes l1 r1) (writes l2 r2) d
  = (Return r1, Return r2, exec_all (merge_by schedule l1 l2) d).
Proof.
  revert l1 l2 d.
  induction schedule as [|[] rest IH]; intros l1 l2 d H1 H2.
  - destruct l1; [|cbn in H1; lia]. destruct l2; [|cbn in H2; lia].
    reflexivity.
  - destruct l1 as [|s l1].
    + apply (IH [] l2 d); cbn in *; lia.
    + rewrite writes_cons. cbn [interleave step merge_by].
      change (exec_all (s :: merge_by rest l1 l2) d)
        with (exec_all (merge_by rest l1 l2) (exec s d)).
      apply IH; cbn in *; lia.
  - destruct l2 as [|s l2].
    + apply (IH l1 [] d); cbn in *; lia.
    + rewrite (writes_cons s l2). cbn [interleave step merge_by].
      change (exec_all (s :: merge_by rest l1 l2) d)
        with (exec_all (merge_by rest l1 l2) (exec s d)).
      apply IH; cbn in *; lia.
Qed.

Lemma merge_by_Forall {A} (P : A -> Prop) schedule (l1 l2 : list A) :
  Forall P l1 -> Forall P l2 -> Forall P (merge_by schedule l1 l2).
Proof.
  revert l1 l2.
  induction schedule as [|[] rest IH]; intros l1 l2 H1 H2; cbn [merge_by].
  - constructor.
  - destruct H1 as [|x l1 Hx H1]; [now apply IH|].
    constructor; [exact Hx | now apply IH].
  - destruct H2 as [|x l2 Hx H2]; [now apply IH|].
    constructor; [exact Hx | now apply IH].
Qed.

Lemma omap_nil_cons {A B} (f : A -> option B) x (l : list A) :
  omap f (x :: l) = [] -> f x = None /\ omap f l = [].
Proof. simpl. destruct (f x); [discriminate|]. now split. Qed.

Lemma omap_skip {A B} (f : A -> option B) x (l : list A) :
  f x = None -> omap f (x :: l) = omap f l.
Proof. intros E. simpl. now rewrite E. Qed.

Lemma omap_keep {A B} (f : A -> option B) x y (l : list A) :
  f x = Some y -> omap f (x :: l) = y :: omap f l.
Proof. intros E. simpl. now rewrite E. Qed.

Lemma omap_cons_eq {A B} (f : A -> option B) x (l l' : list A) :
  omap f l = omap f l' -> omap f (x :: l) = omap f (x :: l').
Proof.
  intros E. destruct (f x) as [y|] eqn:Hx.
  - rewrite !(omap_keep f x y _ Hx). now rewrite E.
  - rewrite !(omap_skip f x _ Hx). exact E.
Qed.

(** What one body contributes is not disturbed by a body that contributes
    nothing. *)
Lemma merge_by_right_only {A B} (f : A -> option B) schedule (l1 l2 : list A) :
  omap f l1 = [] ->
  (length l2 <= turns false schedule)%nat ->
  omap f (merge_by schedule l1 l2) = omap f l2.
Proof.
  revert l1 l2.
  induction schedule as [|[] rest IH]; intros l1 l2 H1 H2; cbn [merge_by].
  - destruct l2; [reflexivity | cbn in H2; lia].
  - destruct l1 as [|x l1]; [now apply IH|].
    apply omap_nil_cons in H1 as [Hx H1].
    rewrite (omap_skip f x _ Hx). now apply IH.
  - destruct l2 as [|x l2]; [apply IH; [exact H1 | cbn; lia]|].
    apply omap_cons_eq, IH; [exact H1 | cbn in H2; lia].
Qed.

Lemma merge_by_left_only {A B} (f : A -> option B) schedule (l1 l2 : list A) :
  omap f l2 = [] ->
  (length l1 <= turns true schedule)%nat ->
  omap f (merge_by schedule l1 l2) = omap f l1.
Proof.
  revert l1 l2.
  induction schedule as [|[] rest IH]; intros l1 l2 H2 H1; cbn [merge_by].
  - destruct l1; [reflexivity | cbn in H1; lia].
  - destruct l1 as [|x l1]; [apply IH; [exact H2 | cbn; lia]|].
    apply omap_cons_eq, IH; [exact H2 | cbn in H1; lia].
  - destruct l2 as [|x l2]; [now apply IH|].
    apply omap_nil_cons in H2 as [Hx H2].
    rewrite (omap_skip f x _ Hx). now apply IH.
Qed.

Lemma omap_single {A B} (f : A -> option B) (pre post : list A) s x :
  omap f pre = [] -> f s = Some x -> omap f post = [] ->
  omap f (pre ++ s :: post) = [x].
Proof.
  intros Hpre Hs Hpost.
  rewrite omap_app, Hpre, (omap_keep f s x _ Hs), Hpost. reflexivity.
Qed.

(** When each body contributes one item, the two items arrive in the order
    in which the schedule reaches the statements that carry them. *)
Lemma merge_by_order {A B} (f : A -> option B) schedule
    (pre1 post1 pre2 post2 : list A) s1 s2 x1 x2 :
  omap f pre1 = [] -> f s1 = Some x1 -> omap f post1 = [] ->
  omap f pre2 = [] -> f s2 = Some x2 -> omap f post2 = [] ->
  (length (pre1 ++ s1 :: post1) <= turns true schedule)%nat ->
  (length (pre2 ++ s2 :: post2) <= turns false schedule)%nat ->
  omap f (merge_by schedule (pre1 ++ s1 :: post1) (pre2 ++ s2 :: post2))
  = if calls_before (length pre1) (length pre2) schedule
    then [x1; x2] else [x2; x1].
Proof.
  intros Hpre1 Hs1 Hpost1 Hpre2 Hs2 Hpost2.
  revert pre1 pre2 Hpre1 Hpre2.
  induction schedule as [|[] rest IH]; intros pre1 pre2 Hpre1 Hpre2 H1 H2.
  - rewrite length_app in H1. cbn in H1. lia.
  - destruct pre1 as [|p pre1].
    + cbn [app length merge_by calls_before].
      rewrite (omap_keep f s1 x1 _ Hs1).
      rewrite (merge_by_right_only f rest post1 _ Hpost1)
        by (cbn in H2; exact H2).
      now rewrite (omap_single f pre2 post2 s2 x2).
    + apply omap_nil_cons in Hpre1 as [Hp Hpre1].
      change ((p :: pre1) ++ s1 :: post1) with (p :: (pre1 ++ s1 :: post1)).
      cbn [length merge_by calls_before].
      rewrite (omap_skip f p _ Hp).
      apply IH; [exact Hpre1 | exact Hpre2 | |].
      * change ((p :: pre1) ++ s1 :: post1)
          with (p :: (pre1 ++ s1 :: post1)) in H1.
        cbn in H1. lia.
      * cbn in H2. exact H2.
  - destruct pre2 as [|p pre2].
    + cbn [app length merge_by calls_before].
      rewrite (omap_keep f s2 x2 _ Hs2).
      rewrite (merge_by_left_only f rest _ post2 Hpost2)
        by (cbn in H1; exact H1).
      now rewrite (omap_single f pre1 post1 s1 x1).
    + apply omap_nil_cons in Hpre2 as [Hp Hpre2].
      change ((p :: pre2) ++ s2 :: post2) with (p :: (pre2 ++ s2 :: post2)).
      cbn [length merge_by calls_before].
      rewrite (omap_skip f p _ Hp).
      apply IH; [exact Hpre1 | exact Hpre2 | |].
      * cbn in H1. exact H1.
      * change ((p :: pre2) ++ s2 :: post2)
          with (p :: (pre2 ++ s2 :: post2)) in H2.
        cbn in H2. lia.
Qed.

(** Statements that do not look at the stored balance: what they leave
    behind can be read off the statements. *)
Lemma exec_all_blind ss d :
  Forall (fun s => blind s = true) ss ->
  users (exec_all ss d) = set_balances (omap balance_set_by ss) (users d) /\
  wallet_transactions (exec_all ss d)
  = wallet_transactions d ++ omap transaction_of ss.
Proof.
  intros Hss. revert d.
  induction Hss as [|s ss Hs _ IH]; intros d.
  - split; [reflexivity|]. cbn. now rewrite app_nil_r.
  - change (exec_all (s :: ss) d) with (exec_all ss (exec s d)).
    destruct (IH (exec s d)) as [Husers Hrows]. rewrite Husers, Hrows.
    destruct s; try discriminate Hs; split; try reflexivity.
    cbn [exec add_transaction wallet_transactions].
    rewrite (omap_keep transaction_of _ row) by reflexivity.
    now rewrite <- app_assoc.
Qed.

(** *** Both reads first *)

(** The schedules of [reads_before_writes] start with the two reads, in
    either order, and go on with the writes. *)
Lemma reads_before_writes_inv schedule :
  reads_before_writes schedule = true ->
  exists first rest,
    schedule = first :: negb first :: rest /\
    (4 <= turns true rest)%nat /\ (4 <= turns false rest)%nat /\
    calls_before 1 1 schedule = calls_before 0 0 rest /\
    calls_before 2 2 schedule = calls_before 1 1 rest.
Proof.
  unfold reads_before_writes. intros H.
  apply andb_true_iff in H as [H Hfalse].
  apply andb_true_iff in H as [H Htrue].
  apply andb_true_iff in H as [H01 H10].
  apply Nat.leb_le in Htrue, Hfalse.
  destruct schedule as [|a [|b rest]].
  - cbn in Htrue. lia.
  - destruct a; cbn in Htrue, Hfalse; lia.
  - destruct a, b; cbn in H01, H10, Htrue, Hfalse; try discriminate.
    + exists true, rest. repeat split; lia.
    + exists false, rest. repeat split; lia.
Qed.

(** The read of a request that passes the check: the request goes on with
    its four writes, computed from the balance it has just read. *)
Lemma generate_reads user req w d :
  productImages req <> [] ->
  let cost :=
    rupees (calculateCreditCost (resolution req) (length (productImages req))) in
  let current := Js.or_zero (balance_of d (auth_id user)) in
  Js.lt current cost = false ->
  exists row usage image r,
    step (generate (Some user) req w) d
    = (writes [ UpdateBalanceTo (Js.sub current cost) (auth_id user);
                InsertTransaction row;
                InsertCreditUsage usage;
                InsertGeneratedImage image ] r, d) /\
    status r = 200%Z /\
    user_id row = auth_id user /\ type row = deduct /\ amount row = cost /\
    balance_after row = Some (Js.sub current cost).
Proof.
  intros Himg cost current Hcheck.
  unfold generate. rewrite (nonempty_length _ Himg). cbn [step].
  fold cost current. rewrite Hcheck.
  eexists _, _, _, _. split; [reflexivity|].
  cbn [status json user_id type amount balance_after]. repeat split.
Qed.

(** Two reads in a row leave the database as it is. *)
Lemma interleave_reads {R} first rest (h1 h2 h1' h2' : Handler R) d :
  step h1 d = (h1', d) -> step h2 d = (h2', d) ->
  interleave (first :: negb first :: rest) h1 h2 d = interleave rest h1' h2' d.
Proof.
  intros E1 E2. destruct first; cbn [negb interleave].
  - rewrite E1. cbn [interleave]. now rewrite E2.
  - rewrite E2. cbn [interleave]. now rewrite E1.
Qed.

(** Both balance reads come first: each request then writes the balance it
    computed from its own read.  The UPDATE that comes last decides the
    stored balance, and the ledger rows stand in the order of their
    INSERTs. *)
Lemma generate_interleaved schedule user req1 req2 w1 w2 d :
  reads_before_writes schedule = true ->
  productImages req1 <> [] ->
  productImages req2 <> [] ->
  let cost1 :=
    rupees (calculateCreditCost (resolution req1) (length (productImages req1))) in
  let cost2 :=
    rupees (calculateCreditCost (resolution req2) (length (productImages req2))) in
  let current := Js.or_zero (balance_of d (auth_id user)) in
  Js.lt current cost1 = false ->
  Js.lt current cost2 = false ->
  exists r1 r2 d',
    interleave schedule
      (generate (Some user) req1 w1) (generate (Some user) req2 w2) d
    = (Return r1, Return r2, d') /\
    status r1 = 200%Z /\ status r2 = 200%Z /\
    users d'
    = alter (set_balance
               (Js.sub current
                  (if calls_before 1 1 schedule then cost2 else cost1)))
        (auth_id user) (users d) /\
    exists row1 row2,
      wallet_transactions d'
      = wallet_transactions d ++
        (if calls_before 2 2 schedule then [row1; row2] else [row2; row1]) /\
      user_id row1 = auth_id user /\ user_id row2 = auth_id user /\
      type row1 = deduct /\ type row2 = deduct /\
      amount row1 = cost1 /\ amount row2 = cost2 /\
      balance_after row1 = Some (Js.sub current cost1) /\
      balance_after row2 = Some (Js.sub current cost2).
Proof.
  intros Hsched Himg1 Himg2 cost1 cost2 current Hcheck1 Hcheck2.
  destruct (reads_before_writes_inv schedule Hsched)
    as (first & rest & -> & Htrue & Hfalse & -> & ->).
  destruct (generate_reads user req1 w1 d Himg1 Hcheck1)
    as (row1 & usage1 & image1 & r1 & Hstep1 & Hs1 & Hu1 & Ht1 & Ha1 & Hb1).
  destruct (generate_reads user req2 w2 d Himg2 Hcheck2)
    as (row2 & usage2 & image2 & r2 & Hstep2 & Hs2 & Hu2 & Ht2 & Ha2 & Hb2).
  fold cost1 current in Hstep1, Ha1, Hb1. fold cost2 current in Hstep2, Ha2, Hb2.
  rewrite (interleave_reads first rest _ _ _ _ d Hstep1 Hstep2).
  rewrite interleave_writes by (cbn [length]; assumption).
  set (l1 := [ UpdateBalanceTo (Js.sub current cost1) (auth_id user);
               InsertTransaction row1; InsertCreditUsage usage1;
               InsertGeneratedImage image1 ]).
  set (l2 := [ UpdateBalanceTo (Js.sub current cost2) (auth_id user);
               InsertTransaction row2; InsertCreditUsage usage2;
               InsertGeneratedImage image2 ]).
  assert (Forall (fun s => blind s = true) (merge_by rest l1 l2)) as Hblind.
  { apply merge_by_Forall; repeat constructor. }
  destruct (exec_all_blind _ d Hblind) as [Husers Hrows].
  pose proof (merge_by_order balance_set_by rest
                [] [ InsertTransaction row1; InsertCreditUsage usage1;
                     InsertGeneratedImage image1 ]
                [] [ InsertTransaction row2; InsertCreditUsage usage2;
                     InsertGeneratedImage image2 ]
                (UpdateBalanceTo (Js.sub current cost1) (auth_id user))
                (UpdateBalanceTo (Js.sub current cost2) (auth_id user))
                _ _ eq_refl eq_refl eq_refl eq_refl eq_refl eq_refl
                Htrue Hfalse) as Hsets.
  pose proof (merge_by_order transaction_of rest
                [ UpdateBalanceTo (Js.sub current cost1) (auth_id user) ]
                [ InsertCreditUsage usage1; InsertGeneratedImage image1 ]
                [ UpdateBalanceTo (Js.sub current cost2) (auth_id user) ]
                [ InsertCreditUsage usage2; InsertGeneratedImage image2 ]
                (InsertTransaction row1) (InsertTransaction row2)
                _ _ eq_refl eq_refl eq_refl eq_refl eq_refl eq_refl
                Htrue Hfalse) as Hledger.
  cbn [app length] in Hsets, Hledger. fold l1 l2 in Hsets, Hledger.
  rewrite Hsets in Husers. rewrite Hledger in Hrows.
  eexists _, _, _. split; [reflexivity|].
  split; [exact Hs1|]. split; [exact Hs2|]. split.
  { rewrite Husers. apply map_eq. intros id'.
    destruct (calls_before 0 0 rest); cbn [set_balances fold_left];
      (destruct (decide (auth_id user = id')) as [<-|Hne];
       [ rewrite !lookup_alter_eq;
         destruct (users d !! auth_id user); reflexivity
       | now rewrite !lookup_alter_ne ]). }
  exists row1, row2. split; [exact Hrows|]. repeat split; assumption.
Qed.

(** Two debits through [updateWalletBalance], one after the other: each is
    relative to the stored balance and neither looks at it first. *)
Lemma updateWalletBalance_twice userId amt1 amt2 descr1 descr2 d u :
  users d !! userId = Some u ->
  let d' :=
    snd (run [] (updateWalletBalance userId amt2 descr2)
           (snd (run [] (updateWalletBalance userId amt1 descr1) d))) in
  exists u' row1 row2,
    users d' !! userId = Some u' /\
    (wallet_balance u' == wallet_balance u + amt1 + amt2)%Q /\
    wallet_transactions d' = wallet_transactions d ++ [row1; row2] /\
    user_id row1 = userId /\ user_id row2 = userId /\
    type row1 = (if Js.lt 0 amt1 then topup else deduct) /\
    type row2 = (if Js.lt 0 amt2 then topup else deduct) /\
    (amount row1 == Qabs amt1)%Q /\ (amount row2 == Qabs amt2)%Q /\
    snapshot_is row2 (wallet_balance u').
Proof.
  intros Hu d'. subst d'. unfold updateWalletBalance.
  cbn [run batch_fault next_fault length snd exec_all fold_left].
  set (u1 := set_balance (Js.add (wallet_balance u) amt1) u).
  set (d1 := exec (UpdateBalanceBy amt1 userId) d).
  assert (users d1 !! userId = Some u1) as Hu1
    by apply (lookup_update_by amt1 userId d u Hu).
  set (d1' := exec (InsertTransactionSnapshot userId
                      (if Js.lt 0 amt1 then topup else deduct) (Js.abs amt1)
                      userId descr1) d1).
  assert (users d1' !! userId = Some u1) as Hu1' by exact Hu1.
  set (u2 := set_balance (Js.add (wallet_balance u1) amt2) u1).
  set (d2 := exec (UpdateBalanceBy amt2 userId) d1').
  assert (users d2 !! userId = Some u2) as Hu2
    by apply (lookup_update_by amt2 userId d1' u1 Hu1').
  eexists u2, _, _. split; [exact Hu2|].
  split.
  { unfold u2, u1. cbn [set_balance wallet_balance].
    rewrite !JsFacts.add_spec. reflexivity. }
  split.
  { unfold d2, d1', d1.
    cbn [exec add_transaction with_users wallet_transactions].
    rewrite <- app_assoc. reflexivity. }
  cbn [user_id type amount].
  split; [reflexivity|]. split; [reflexivity|].
  split; [reflexivity|]. split; [reflexivity|].
  split; [reflexivity|]. split; [reflexivity|].
  change (match balance_of d2 userId with
          | Some s => (s == wallet_balance u2)%Q
          | None => False
          end).
  rewrite (balance_of_lookup _ _ _ Hu2). reflexivity.
Qed.

(** C6, as the code has it: two generation requests of one user to the
    [POST /api/generate] handler of [index.ts] that each pass the
    sufficiency check but together cost more than the balance.
    Run one after the other, exactly the first is served: the second is
    answered 400 [Insufficient wallet balance] and changes nothing, and the
    balance is the prior balance less the first cost, not below zero.
    Under every schedule in which each request reads the balance before the
    other one writes it and both make all their calls, both are answered
    200: the check is made on the balance read at the start and the write is
    not conditional.  The stored balance is then the prior balance less the
    cost of the request whose UPDATE comes last, not below zero, and two
    [deduct] rows are appended in the order of their INSERTs, each with the
    balance its own request computed.
    A debit through [updateWalletBalance] is relative to the stored balance
    and makes no check of its own: two such debits of these two costs leave
    the balance at the prior balance less both costs, below zero. *)
Theorem debits_serial_or_interleaved
    (user : AuthUser) (req1 req2 : GenerationRequest) (w1 w2 : World)
    (d : DB) (u : User) :
  productImages req1 <> [] ->
  productImages req2 <> [] ->
  users d !! auth_id user = Some u ->
  let cost1 :=
    rupees (calculateCreditCost (resolution req1) (length (productImages req1))) in
  let cost2 :=
    rupees (calculateCreditCost (resolution req2) (length (productImages req2))) in
  (cost1 <= wallet_balance u)%Q ->
  (cost2 <= wallet_balance u)%Q ->
  (wallet_balance u < cost1 + cost2)%Q ->
  (let first := post_generate [] (Some user) req1 w1 d in
   let second := post_generate [] (Some user) req2 w2 (snd first) in
   status (fst first) = 200%Z /\
   (exists current,
       fst second
       = json (InsufficientBody "Insufficient wallet balance" cost2 current)
           400) /\
   snd second = snd first /\
   exists u',
     users (snd second) !! auth_id user = Some u' /\
     (wallet_balance u' == wallet_balance u - cost1)%Q /\
     (0 <= wallet_balance u')%Q) /\
  (forall schedule, reads_before_writes schedule = true ->
    exists r1 r2 d' u' row1 row2,
      interleave schedule
        (generate (Some user) req1 w1) (generate (Some user) req2 w2) d
      = (Return r1, Return r2, d') /\
      status r1 = 200%Z /\ status r2 = 200%Z /\
      users d' !! auth_id user = Some u' /\
      (wallet_balance u'
       == wallet_balance u
          - (if calls_before 1 1 schedule then cost2 else cost1))%Q /\
      (0 <= wallet_balance u')%Q /\
      wallet_transactions d'
      = wallet_transactions d ++
        (if calls_before 2 2 schedule then [row1; row2] else [row2; row1]) /\
      type row1 = deduct /\ type row2 = deduct /\
      amount row1 = cost1 /\ amount row2 = cost2 /\
      snapshot_is row1 (wallet_balance u - cost1) /\
      snapshot_is row2 (wallet_balance u - cost2)) /\
  (forall descr1 descr2,
    let d' :=
      snd (run [] (updateWalletBalance (auth_id user) (- cost2) descr2)
             (snd (run [] (updateWalletBalance (auth_id user) (- cost1) descr1)
                     d))) in
    exists u' row1 row2,
      users d' !! auth_id user = Some u' /\
      (wallet_balance u' == wallet_balance u - cost1 - cost2)%Q /\
      (wallet_balance u' < 0)%Q /\
      wallet_transactions d' = wallet_transactions d ++ [row1; row2] /\
      type row1 = deduct /\ type row2 = deduct /\
      (amount row1 == cost1)%Q /\ (amount row2 == cost2)%Q).
Proof.
  intros Himg1 Himg2 Hu cost1 cost2 Hle1 Hle2 Hjoint.
  pose proof (balance_covers_cost _ _ Hle1) as Hcheck1.
  pose proof (balance_covers_cost _ _ Hle2) as Hcheck2.
  rewrite <- (balance_of_lookup _ _ _ Hu) in Hcheck1, Hcheck2.
  split; [|split].
  - intros first second.
    destruct (post_generate_sufficient user req1 w1 d Himg1 Hcheck1)
      as (Hres1 & Husers1 & _).
    fold first cost1 in Hres1, Husers1.
    set (nb := Js.sub (Js.or_zero (balance_of d (auth_id user))) cost1) in *.
    assert (nb == wallet_balance u - cost1)%Q as Hnb.
    { unfold nb. rewrite JsFacts.sub_spec, (balance_of_lookup _ _ _ Hu),
        JsFacts.or_zero_some. reflexivity. }
    assert (users (snd first) !! auth_id user = Some (set_balance nb u)) as Hu1.
    { rewrite Husers1, lookup_alter_eq, Hu. reflexivity. }
    assert (Js.lt (Js.or_zero (balance_of (snd first) (auth_id user))) cost2
            = true) as Hcheck.
    { rewrite (balance_of_lookup _ _ _ Hu1). apply balance_below_cost.
      cbn [set_balance wallet_balance]. rewrite Hnb. lra. }
    pose proof (post_generate_insufficient [] user req2 w2 (snd first)
                  Himg2 eq_refl Hcheck) as Hres2.
    fold second cost2 in Hres2.
    split; [rewrite Hres1; reflexivity|].
    split; [eexists; rewrite Hres2; reflexivity|].
    split; [rewrite Hres2; reflexivity|].
    exists (set_balance nb u). rewrite Hres2. cbn [snd].
    split; [exact Hu1|]. cbn [set_balance wallet_balance].
    split; [exact Hnb|]. rewrite Hnb. lra.
  - intros schedule Hsched.
    destruct (generate_interleaved schedule user req1 req2 w1 w2 d Hsched
                Himg1 Himg2 Hcheck1 Hcheck2)
      as (r1 & r2 & d' & Hrun & Hs1 & Hs2 & Husers & row1 & row2 & Hrows
          & _ & _ & Ht1 & Ht2 & Ha1 & Ha2 & Hb1 & Hb2).
    fold cost1 cost2 in Husers, Ha1, Ha2, Hb1, Hb2.
    assert (forall cost,
               (Js.sub (Js.or_zero (balance_of d (auth_id user))) cost
                == wallet_balance u - cost)%Q) as Hsub.
    { intros cost. rewrite JsFacts.sub_spec, (balance_of_lookup _ _ _ Hu),
        JsFacts.or_zero_some. reflexivity. }
    set (last := if calls_before 1 1 schedule then cost2 else cost1) in *.
    assert (last <= wallet_balance u)%Q as Hlast
      by (unfold last; destruct (calls_before 1 1 schedule); assumption).
    set (nb := Js.sub (Js.or_zero (balance_of d (auth_id user))) last) in *.
    exists r1, r2, d', (set_balance nb u), row1, row2.
    split; [exact Hrun|]. split; [exact Hs1|]. split; [exact Hs2|].
    split; [rewrite Husers, lookup_alter_eq, Hu; reflexivity|].
    cbn [set_balance wallet_balance].
    split; [apply Hsub|].
    split; [unfold nb; rewrite Hsub; lra|].
    split; [exact Hrows|].
    split; [exact Ht1|]. split; [exact Ht2|].
    split; [exact Ha1|]. split; [exact Ha2|].
    unfold snapshot_is. rewrite Hb1, Hb2. split; apply Hsub.
  - intros descr1 descr2 d'.
    destruct (updateWalletBalance_twice (auth_id user) (- cost1) (- cost2)
                descr1 descr2 d u Hu)
      as (u' & row1 & row2 & Hu' & Hbal & Hrows & _ & _ & Ht1 & Ht2
          & Ha1 & Ha2 & _).
    fold d' in Hu', Hrows.
    pose proof (rupees_pos (resolution req1) (length (productImages req1)))
      as Hpos1.
    pose proof (rupees_pos (resolution req2) (length (productImages req2)))
      as Hpos2.
    fold cost1 in Hpos1. fold cost2 in Hpos2.
    assert (Js.lt 0 (- cost1) = false) as Hneg1
      by (apply JsFacts.lt_false; lra).
    assert (Js.lt 0 (- cost2) = false) as Hneg2
      by (apply JsFacts.lt_false; lra).
    rewrite Hneg1 in Ht1. rewrite Hneg2 in Ht2.
    exists u', row1, row2.
    split; [exact Hu'|].
    split; [rewrite Hbal; lra|].
    split; [rewrite Hbal; lra|].
    split; [exact Hrows|].
    split; [exact Ht1|]. split; [exact Ht2|].
    split.
    + rewrite Ha1, Qabs_neg by lra. ring.
    + rewrite Ha2, Qabs_neg by lra. ring.
Qed.

Lemma debits_serial_or_interleaved_witness :
  exists r1 r2 d' u' row1 row2,
    interleave reads_then_writes
      (generate (Some Scenario.alice) Scenario.landscape Scenario.imagen_up)
      (generate (Some Scenario.alice) Scenario.landscape Scenario.imagen_down)
      (Scenario.fresh 75)
    = (Return r1, Return r2, d') /\
    status r1 = 200%Z /\ status r2 = 200%Z /\
    users d' !! "user_1" = Some u' /\
    (wallet_balance u' == 75 - 50)%Q /\
    (0 <= wallet_balance u')%Q /\
    wallet_transactions d' = [row1; row2] /\
    type row1 = deduct /\ type row2 = deduct /\
    amount row1 = 50%Q /\ amount row2 = 50%Q /\
    snapshot_is row1 (75 - 50) /\ snapshot_is row2 (75 - 50).
Proof.
  assert (productImages Scenario.landscape <> []) as Himg by discriminate.
  assert ((Qnum 50 * QDen 75 <= Qnum 75 * QDen 50)%Z) as Hle
    by (vm_compute; discriminate).
  assert ((Qnum 75 * QDen (50 + 50) < Qnum (50 + 50) * QDen 75)%Z) as Hjoint
    by reflexivity.
  destruct (debits_serial_or_interleaved Scenario.alice
              Scenario.landscape Scenario.landscape
              Scenario.imagen_up Scenario.imagen_down (Scenario.fresh 75)
              {| email := "alice@example.com"; wallet_balance := 75 |}
              Himg Himg eq_refl Hle Hle Hjoint)
    as (_ & Hboth & _).
  exact (Hboth reads_then_writes eq_refl).
Defined.

(** C6, as the claim has it, fails: on a balance of 75, two requests of 50
    rupees each whose reads both come before the writes are both answered
    200.  Neither fails with an insufficient balance; two [deduct] rows of
    50 and two images are recorded, and the stored balance of 25 is no
    longer the replay of the ledger (-100). *)
Lemma concurrent_debits_both_succeed :
  let '(h1, h2, d) :=
    interleave reads_then_writes
      (generate (Some Scenario.alice) Scenario.landscape Scenario.imagen_up)
      (generate (Some Scenario.alice) Scenario.landscape Scenario.imagen_down)
      (Scenario.fresh 75) in
  (exists r1, h1 = Return r1 /\ status r1 = 200%Z) /\
  (exists r2, h2 = Return r2 /\ status r2 = 200%Z) /\
  balance_of d "user_1" = Some 25%Q /\
  map (fun t => (type t, amount t, balance_after t)) (wallet_transactions d)
  = [(deduct, 50%Q, Some 25%Q); (deduct, 50%Q, Some 25%Q)] /\
  length (generated_images d) = 2%nat /\
  replay (ledger_of "user_1" (wallet_transactions d)) = (-100)%Q.
Proof.
  vm_compute. repeat split; eexists; split; reflexivity.
Qed.

(** * Beyond the ledger *)

(** ** Upload validation *)

Lemma byte_at_take n (buffer : list byte) i b :
  (i < n)%nat -> byte_at (take n buffer) i b = byte_at buffer i b.
Proof. intros H. unfold byte_at. now rewrite lookup_take_lt. Qed.

Lemma byte_at_app (buffer extra : list byte) i b :
  byte_at buffer i b = true -> byte_at (buffer ++ extra) i b = true.
Proof.
  unfold byte_at. destruct (buffer !! i) as [x|] eqn:E; [|discriminate].
  now rewrite (lookup_app_l_Some _ _ _ _ E).
Qed.

(** The cascade of [if]s as one disjunction. *)
Lemma isValidImage_cases (buffer : list byte) :
  isValidImage buffer =
  ((8 <=? length buffer)%nat &&
     byte_at buffer 0 x89 && byte_at buffer 1 x50 &&
     byte_at buffer 2 x4e && byte_at buffer 3 x47)
  || ((2 <=? length buffer)%nat &&
        byte_at buffer 0 xff && byte_at buffer 1 xd8)
  || ((12 <=? length buffer)%nat &&
        byte_at buffer 0 x52 && byte_at buffer 1 x49 &&
        byte_at buffer 2 x46 && byte_at buffer 3 x46 &&
        byte_at buffer 8 x57 && byte_at buffer 9 x45 &&
        byte_at buffer 10 x42 && byte_at buffer 11 x50).
Proof.
  unfold isValidImage.
  repeat match goal with
         | |- context [if ?c then true else _] => destruct c; cbn [orb]
         end; reflexivity.
Qed.

Lemma leb_take12 k (buffer : list byte) :
  (k <= 12)%nat ->
  (k <=? length (take 12 buffer))%nat = (k <=? length buffer)%nat.
Proof.
  intros Hk. rewrite length_take.
  destruct (Nat.leb_spec k (length buffer)), (Nat.leb_spec k (12 `min` length buffer));
    try reflexivity; lia.
Qed.

(** X1: [isValidImage] decides on the first twelve bytes alone.  A buffer
    is accepted exactly when its first twelve bytes are; whatever is
    appended to an accepted buffer, it stays accepted; and a buffer of
    fewer than two bytes is never accepted. *)
Theorem isValidImage_reads_header (buffer extra : list byte) :
  isValidImage buffer = isValidImage (take 12 buffer) /\
  (isValidImage buffer = true -> isValidImage (buffer ++ extra) = true) /\
  ((length buffer < 2)%nat -> isValidImage buffer = false).
Proof.
  split; [|split].
  - rewrite !isValidImage_cases.
    rewrite !leb_take12 by lia. rewrite !byte_at_take by lia. reflexivity.
  - rewrite !isValidImage_cases, !orb_true_iff, !andb_true_iff.
    rewrite !Nat.leb_le, length_app.
    intros [[H|H]|H]; [left; left | left; right | right];
      repeat match goal with H : _ /\ _ |- _ => destruct H end;
      repeat split; try (now apply byte_at_app); lia.
  - intros Hlen. rewrite isValidImage_cases.
    destruct (Nat.leb_spec 8 (length buffer)); [lia|].
    destruct (Nat.leb_spec 2 (length buffer)); [lia|].
    destruct (Nat.leb_spec 12 (length buffer)); [lia|].
    reflexivity.
Qed.

Lemma check_file_next maxSize f :
  check_file maxSize f = Next <->
  (file_size f <= maxSize)%nat /\
  String.prefix "image/" (file_type f) = true /\
  isValidImage (file_content f) = true.
Proof.
  unfold check_file.
  destruct (Nat.ltb_spec maxSize (file_size f)).
  { split; [discriminate | intros (? & _); lia]. }
  destruct (String.prefix "image/" (file_type f)); cbn [negb].
  2: { split; [discriminate | intros (_ & ? & _); discriminate]. }
  destruct (isValidImage (file_content f)); cbn [negb].
  - split; [intros _; repeat split; lia | reflexivity].
  - split; [discriminate | intros (_ & _ & ?); discriminate].
Qed.

Lemma check_entries_next maxSize entries :
  check_entries maxSize entries = Next <->
  Forall (fun f => check_file maxSize f = Next) (uploads entries).
Proof.
  induction entries as [|[key [text|f]] rest IH]; cbn [check_entries].
  - split; [constructor | reflexivity].
  - exact IH.
  - change (uploads ((key, Upload f) :: rest)) with (f :: uploads rest).
    rewrite Forall_cons. destruct (check_file maxSize f).
    + rewrite IH. tauto.
    + split; [discriminate | intros [? _]; discriminate].
Qed.

(** X2: [validateImageUpload] hands a request on exactly when it is not a
    multipart form, or every file of the form is at most [maxSize] bytes
    long, has a type that starts with [image/] and begins with the magic
    bytes of a PNG, JPEG or WebP image.  Text fields are not looked at, and
    a request with any other content type (the JSON body of
    [/api/generate] for one) is never inspected. *)
Theorem validateImageUpload_passes (maxSize : nat) (req : UploadRequest) :
  validateImageUpload maxSize req = Next <->
  (match content_type req with
   | Some contentType => Js.includes contentType "multipart/form-data" = false
   | None => True
   end) \/
  Forall (fun f =>
            (file_size f <= maxSize)%nat /\
            String.prefix "image/" (file_type f) = true /\
            isValidImage (file_content f) = true)
    (uploads (form_data req)).
Proof.
  assert (check_entries maxSize (form_data req) = Next <->
          Forall (fun f =>
                    (file_size f <= maxSize)%nat /\
                    String.prefix "image/" (file_type f) = true /\
                    isValidImage (file_content f) = true)
            (uploads (form_data req))) as Hall.
  { rewrite check_entries_next. apply Forall_iff. intros f.
    apply check_file_next. }
  unfold validateImageUpload.
  destruct (content_type req) as [contentType|].
  - destruct (Js.includes contentType "multipart/form-data").
    + rewrite Hall. split; [tauto | intros [?|?]; [discriminate | assumption]].
    + split; [now left | reflexivity].
  - split; [now left | reflexivity].
Qed.

(** ** The per-user rate limit *)

Lemma rateLimit_serve_window user (times : list Z)
    (attempts : gmap string Attempts) c R :
  attempts !! auth_id user = Some {| count := c; resetTime := R |} ->
  Forall (fun t => (t <= R)%Z) times ->
  map (fun s => admitted (snd s))
    (fst (rateLimit_serve (map (fun t => (Some user, t)) times) attempts))
  = repeat true (Z.to_nat (maxAttempts - c) `min` length times) ++
    repeat false (length times - Z.to_nat (maxAttempts - c)).
Proof.
  revert attempts c. induction times as [|t times IH]; intros attempts c Hrec Hall.
  { cbn. now rewrite Nat.min_0_r. }
  apply Forall_cons in Hall as [Ht Hall].
  cbn [map rateLimit_serve]. unfold rateLimitByUser at 1. rewrite Hrec.
  cbn [resetTime count].
  destruct (Z.ltb_spec R t) as [?|_]; [lia|].
  destruct (Z.leb_spec maxAttempts c) as [Hfull|Hroom].
  - specialize (IH attempts c Hrec Hall).
    destruct (rateLimit_serve _ attempts) as [served attempts'].
    cbn [fst snd map admitted] in *. rewrite IH.
    replace (Z.to_nat (maxAttempts - c)) with 0%nat by lia.
    cbn. now rewrite Nat.sub_0_r.
  - specialize (IH (<[auth_id user :=
                       {| count := c + 1; resetTime := R |}]> attempts)
                  (c + 1)%Z (lookup_insert_eq _ _ _) Hall).
    destruct (rateLimit_serve _ (<[_ := _]> attempts)) as [served attempts'].
    cbn [fst snd map admitted] in *. rewrite IH.
    replace (Z.to_nat (maxAttempts - c))
      with (S (Z.to_nat (maxAttempts - (c + 1)))) by lia.
    reflexivity.
Qed.

(** X3: a user who has no entry in the limiter, or whose window has run
    out, opens a window of fifteen minutes with the first request.  Of the
    requests that reach the limiter up to the end of that window, in
    whatever order their clocks read, exactly the first ten are handed on
    and every later one is answered 429. *)
Theorem rateLimitByUser_ten_per_window
    (user : AuthUser) (t0 : Z) (times : list Z)
    (attempts : gmap string Attempts) :
  match attempts !! auth_id user with
  | None => True
  | Some record => (resetTime record < t0)%Z
  end ->
  Forall (fun t => (t <= t0 + windowMs)%Z) times ->
  map (fun s => admitted (snd s))
    (fst (rateLimit_serve (map (fun t => (Some user, t)) (t0 :: times))
            attempts))
  = repeat true (10 `min` S (length times)) ++
    repeat false (S (length times) - 10).
Proof.
  intros Hstart Hall.
  cbn [map rateLimit_serve].
  assert (rateLimitByUser (Some user) t0 attempts
          = (Next, <[auth_id user :=
                       {| count := 1; resetTime := t0 + windowMs |}]> attempts))
    as ->.
  { unfold rateLimitByUser.
    destruct (attempts !! auth_id user) as [record|]; [|reflexivity].
    destruct (Z.ltb_spec (resetTime record) t0); [reflexivity | lia]. }
  pose proof (rateLimit_serve_window user times
                (<[auth_id user :=
                     {| count := 1; resetTime := t0 + windowMs |}]> attempts)
                1 (t0 + windowMs) (lookup_insert_eq _ _ _) Hall) as H.
  destruct (rateLimit_serve _ (<[_ := _]> attempts)) as [served attempts'].
  cbn [fst snd map admitted] in *. rewrite H.
  change (Z.to_nat (maxAttempts - 1)) with 9%nat.
  destruct (length times) as [|n]; [reflexivity|].
  replace (10 `min` S (S n))%nat with (S (9 `min` S n)) by lia.
  replace (S (S n) - 10)%nat with (S n - 9)%nat by lia.
  reflexivity.
Qed.

Lemma rateLimitByUser_ten_per_window_witness :
  map (fun s => admitted (snd s))
    (fst (rateLimit_serve
            (map (fun t => (Some Scenario.alice, t))
               [1000; 1001; 1002; 1003; 1004; 1005; 1006; 1007; 1008; 1009;
                1010; 900000]%Z)
            ∅))
  = repeat true 10 ++ repeat false 2.
Proof.
  apply (rateLimitByUser_ten_per_window Scenario.alice 1000
           [1001; 1002; 1003; 1004; 1005; 1006; 1007; 1008; 1009;
            1010; 900000]%Z ∅).
  - exact I.
  - repeat constructor; vm_compute; discriminate.
Defined.

Lemma rateLimitByUser_other id user now (attempts : gmap string Attempts) :
  from_user id user = false ->
  snd (rateLimitByUser user now attempts) !! id = attempts !! id.
Proof.
  unfold from_user, rateLimitByUser. destruct user as [u|]; [|reflexivity].
  intros Hne. apply bool_decide_eq_false in Hne.
  destruct (attempts !! auth_id u) as [record|]; cbn [snd].
  - destruct (resetTime record <? now)%Z; cbn [snd];
      [now rewrite lookup_insert_ne|].
    destruct (maxAttempts <=? count record)%Z; cbn [snd];
      [reflexivity | now rewrite lookup_insert_ne].
  - now rewrite lookup_insert_ne.
Qed.

Lemma rateLimitByUser_same id u now (a1 a2 : gmap string Attempts) :
  auth_id u = id ->
  a1 !! id = a2 !! id ->
  fst (rateLimitByUser (Some u) now a1) = fst (rateLimitByUser (Some u) now a2) /\
  snd (rateLimitByUser (Some u) now a1) !! id
  = snd (rateLimitByUser (Some u) now a2) !! id.
Proof.
  intros <- Heq. unfold rateLimitByUser. rewrite <- Heq.
  destruct (a1 !! auth_id u) as [record|] eqn:E1; cbn [fst snd].
  - destruct (resetTime record <? now)%Z; cbn [fst snd];
      [now rewrite !lookup_insert_eq|].
    destruct (maxAttempts <=? count record)%Z; cbn [fst snd];
      [split; [reflexivity | congruence] | now rewrite !lookup_insert_eq].
  - now rewrite !lookup_insert_eq.
Qed.

(** X4: the limit is kept per user.  In any mix of requests, from any
    number of users and from callers that are not signed in, the verdicts a
    user gets are those the user's own requests would get alone: what
    others send neither uses up nor renews the user's allowance. *)
Theorem rateLimitByUser_per_user
    (id : string) (requests : list (option AuthUser * Z))
    (attempts alone : gmap string Attempts) :
  attempts !! id = alone !! id ->
  filter (fun s => from_user id (fst (fst s)) = true)
    (fst (rateLimit_serve requests attempts))
  = fst (rateLimit_serve
           (filter (fun r => from_user id (fst r) = true) requests) alone).
Proof.
  revert attempts alone.
  induction requests as [|[user now] rest IH]; intros attempts alone Heq;
    [reflexivity|].
  cbn [rateLimit_serve].
  destruct (rateLimitByUser user now attempts) as [v attempts'] eqn:E.
  destruct (from_user id user) eqn:Hfrom.
  - rewrite (filter_cons_True _ (user, now)) by exact Hfrom.
    cbn [rateLimit_serve].
    destruct user as [u|]; [|discriminate].
    apply bool_decide_eq_true in Hfrom.
    destruct (rateLimitByUser_same id u now attempts alone Hfrom Heq)
      as [Hv Hnext].
    rewrite E in Hv, Hnext. cbn [fst snd] in Hv, Hnext.
    destruct (rateLimitByUser (Some u) now alone) as [v' alone'].
    cbn [fst snd] in Hv, Hnext. subst v'.
    specialize (IH attempts' alone' Hnext).
    destruct (rateLimit_serve rest attempts') as [served attempts''].
    destruct (rateLimit_serve _ alone') as [served' alone''].
    cbn [fst] in *.
    rewrite filter_cons_True
      by (cbn [fst from_user]; now apply bool_decide_eq_true).
    now rewrite IH.
  - rewrite (filter_cons_False _ (user, now))
      by (cbn [fst]; rewrite Hfrom; discriminate).
    pose proof (rateLimitByUser_other id user now attempts Hfrom) as Hkeep.
    rewrite E in Hkeep. cbn [snd] in Hkeep.
    specialize (IH attempts' alone (eq_trans Hkeep Heq)).
    destruct (rateLimit_serve rest attempts') as [served attempts''].
    cbn [fst] in *.
    rewrite filter_cons_False by (cbn [fst]; rewrite Hfrom; discriminate).
    exact IH.
Qed.

Lemma rateLimitByUser_per_user_witness :
  filter (fun s => from_user "user_1" (fst (fst s)) = true)
    (fst (rateLimit_serve
            [ (Some Scenario.alice, 1000%Z);
              (Some {| auth_id := "user_2"; auth_email := "bob@example.com" |},
               1001%Z);
              (None, 1002%Z);
              (Some Scenario.alice, 1003%Z) ]
            ∅))
  = fst (rateLimit_serve
           [ (Some Scenario.alice, 1000%Z); (Some Scenario.alice, 1003%Z) ] ∅).
Proof.
  apply (rateLimitByUser_per_user "user_1"
           [ (Some Scenario.alice, 1000%Z);
             (Some {| auth_id := "user_2"; auth_email := "bob@example.com" |},
              1001%Z);
             (None, 1002%Z);
             (Some Scenario.alice, 1003%Z) ]
           ∅ ∅).
  reflexivity.
Defined.

(** ** Strings *)

Lemma append_empty (s : string) : s +:+ "" = s.
Proof.
  induction s as [|c s IH]; [reflexivity|].
  change (String c (s +:+ "") = String c s). now rewrite IH.
Qed.

Lemma append_append (a b c : string) : (a +:+ b) +:+ c = a +:+ b +:+ c.
Proof.
  induction a as [|x a IH]; [reflexivity|].
  change (String x ((a +:+ b) +:+ c) = String x (a +:+ b +:+ c)).
  now rewrite IH.
Qed.

Lemma prefix_append (t s : string) : String.prefix t (t +:+ s) = true.
Proof.
  induction t as [|c t IH].
  - now destruct s.
  - change (String.prefix (String c t) (String c (t +:+ s)) = true).
    cbn [String.prefix]. destruct (ascii_dec c c); [exact IH | congruence].
Qed.

Lemma includes_here (t s : string) : Js.includes (t +:+ s) t = true.
Proof.
  destruct (t +:+ s) eqn:E; cbn [Js.includes];
    rewrite <- E, prefix_append; reflexivity.
Qed.

Lemma includes_later (pre s t : string) :
  Js.includes s t = true -> Js.includes (pre +:+ s) t = true.
Proof.
  intros H. induction pre as [|c pre IH]; [exact H|].
  change (Js.includes (String c (pre +:+ s)) t = true).
  cbn [Js.includes]. rewrite IH. apply orb_true_r.
Qed.

Lemma includes_middle (pre t post : string) :
  Js.includes (pre +:+ t +:+ post) t = true.
Proof. apply includes_later, includes_here. Qed.

Lemma includes_x_cons c (s : string) :
  Js.includes (String c s) "x" = false ->
  c <> "x"%char /\ Js.includes s "x" = false.
Proof.
  cbn [Js.includes String.prefix]. intros H.
  apply orb_false_iff in H as [Hc Hs]. split; [|exact Hs].
  intros ->. destruct (ascii_dec "x" "x"); [|congruence].
  destruct s; discriminate.
Qed.

Lemma split_on_x_last (cur s : string) :
  Js.includes s "x" = false -> Js.split_on "x" cur s = [cur +:+ s].
Proof.
  revert cur. induction s as [|c s IH]; intros cur H.
  - cbn. now rewrite append_empty.
  - apply includes_x_cons in H as [Hc Hs]. cbn [Js.split_on].
    apply Ascii.eqb_neq in Hc. rewrite Hc, (IH _ Hs).
    now rewrite append_append.
Qed.

Lemma split_on_x_first (cur w rest : string) :
  Js.includes w "x" = false ->
  Js.split_on "x" cur (w +:+ String "x" rest)
  = (cur +:+ w) :: Js.split_on "x" "" rest.
Proof.
  revert cur. induction w as [|c w IH]; intros cur H.
  - cbn. now rewrite append_empty.
  - apply includes_x_cons in H as [Hc Hs].
    change (Js.split_on "x" cur (String c (w +:+ String "x" rest))
            = (cur +:+ String c w) :: Js.split_on "x" "" rest).
    cbn [Js.split_on].
    apply Ascii.eqb_neq in Hc. rewrite Hc, (IH _ Hs).
    now rewrite append_append.
Qed.

(** ** Helpers of [index.ts] *)

(** X5: [enhanceProductPrompt] wraps the user's prompt and never alters it:
    the prompt is contained, as written, in the enhanced prompt, whatever
    the generation type and resolution.  The ultra-quality wording is chosen
    by looking for [4K] or [2560] in the resolution string: any resolution
    with neither, the [3840x2160] of the [4K Ultra] option included, gets
    the same prompt as [1024x1024], and only [2560x1440] among the offered
    resolutions gets another one.  A resolution that contains [4K] or
    [2560] gets the prompt of [2560x1440], which carries the wording
    [ultra high resolution, 8K quality, extremely detailed]; so does the
    resolution written [4K], whose prompt differs from that of
    [1024x1024]; the other resolutions carry
    [high resolution, sharp focus, detailed] in its place. *)
Theorem enhanceProductPrompt_keeps_prompt
    (basePrompt generationType resolution : string) :
  Js.includes (enhanceProductPrompt basePrompt generationType resolution)
    basePrompt = true /\
  (Js.includes resolution "4K" = false ->
   Js.includes resolution "2560" = false ->
   enhanceProductPrompt basePrompt generationType resolution
   = enhanceProductPrompt basePrompt generationType "1024x1024") /\
  enhanceProductPrompt basePrompt generationType "3840x2160"
  = enhanceProductPrompt basePrompt generationType "1024x1024" /\
  enhanceProductPrompt basePrompt generationType "2560x1440"
  <> enhanceProductPrompt basePrompt generationType "1024x1024" /\
  (Js.includes resolution "4K" = true \/ Js.includes resolution "2560" = true ->
   enhanceProductPrompt basePrompt generationType resolution
   = enhanceProductPrompt basePrompt generationType "2560x1440") /\
  enhanceProductPrompt basePrompt generationType "4K"
  = enhanceProductPrompt basePrompt generationType "2560x1440" /\
  enhanceProductPrompt basePrompt generationType "4K"
  <> enhanceProductPrompt basePrompt generationType "1024x1024" /\
  Js.includes (enhanceProductPrompt basePrompt generationType "2560x1440")
    "ultra high resolution, 8K quality, extremely detailed, " = true /\
  Js.includes (enhanceProductPrompt basePrompt generationType "1024x1024")
    "high resolution, sharp focus, detailed, " = true.
Proof.
  assert (enhanceProductPrompt basePrompt generationType "2560x1440"
          <> enhanceProductPrompt basePrompt generationType "1024x1024")
    as Hdiffer.
  { unfold enhanceProductPrompt.
    change (Js.includes "2560x1440" "4K" || Js.includes "2560x1440" "2560")
      with true.
    change (Js.includes "1024x1024" "4K" || Js.includes "1024x1024" "2560")
      with false.
    cbv zeta iota. intros H.
    apply (inj (String.append _)) in H.
    apply (f_equal (fun s => String.get 0 s)) in H. discriminate H. }
  assert (enhanceProductPrompt basePrompt generationType "4K"
          = enhanceProductPrompt basePrompt generationType "2560x1440")
    as Hultra by reflexivity.
  split; [|split; [|split; [|split; [|split; [|split; [|split; [|split]]]]]]].
  - unfold enhanceProductPrompt. cbv zeta.
    apply includes_later, includes_later, includes_here.
  - intros H4 H2. unfold enhanceProductPrompt. now rewrite H4, H2.
  - reflexivity.
  - exact Hdiffer.
  - intros [H|H]; unfold enhanceProductPrompt; rewrite H.
    + reflexivity.
    + rewrite orb_true_r. reflexivity.
  - exact Hultra.
  - rewrite Hultra. exact Hdiffer.
  - unfold enhanceProductPrompt.
    change (Js.includes "2560x1440" "4K" || Js.includes "2560x1440" "2560")
      with true.
    cbv zeta iota. apply includes_later, includes_here.
  - unfold enhanceProductPrompt.
    change (Js.includes "1024x1024" "4K" || Js.includes "1024x1024" "2560")
      with false.
    cbv zeta iota. apply includes_later, includes_here.
Qed.

(** X6: when the provider call fails for a resolution written
    [<width>x<height>], the placeholder URL that
    [generateImageWithGoogle] returns asks for exactly that width and
    height; a resolution without an [x] yields the path segment
    [undefined] for the height. *)
Theorem generateImageWithGoogle_placeholder_size
    (w : World) (prompt width height : string) (images : list string)
    (e : string) :
  imagen w = Rejected e ->
  Js.includes width "x" = false ->
  Js.includes height "x" = false ->
  generateImageWithGoogle w prompt (width +:+ "x" +:+ height) images
  = "https://picsum.photos/" +:+ width +:+ "/" +:+ height +:+ "?random=" +:+
    Js.show (fallback_now w) /\
  generateImageWithGoogle w prompt width images
  = "https://picsum.photos/" +:+ width +:+ "/undefined?random=" +:+
    Js.show (fallback_now w).
Proof.
  intros Hw Hwidth Hheight.
  rewrite !(generateImageWithGoogle_fallback _ _ _ _ _ Hw).
  unfold Js.split_x.
  change ("x" +:+ height) with (String "x" height).
  rewrite (split_on_x_first "" width height Hwidth),
    (split_on_x_last "" height Hheight),
    (split_on_x_last "" width Hwidth).
  split; reflexivity.
Qed.

Lemma generateImageWithGoogle_placeholder_size_witness :
  generateImageWithGoogle Scenario.imagen_down "a red mug"
    ("2560" +:+ "x" +:+ "1440") []
  = "https://picsum.photos/" +:+ "2560" +:+ "/" +:+ "1440" +:+ "?random=" +:+
    Js.show 1700000000000.
Proof.
  apply (generateImageWithGoogle_placeholder_size Scenario.imagen_down
           "a red mug" "2560" "1440" []
           "Failed to generate image with Google Imagen");
    reflexivity.
Defined.

(** X7: [verifyStripeSignature] looks at neither the payload nor the value
    of the secret.  With any non-empty secret, every header that contains
    [v1=] is accepted for every payload; a header without [v1=] is refused,
    and with an empty secret every header is refused. *)
Theorem verifyStripeSignature_accepts
    (payload payload' signature before after secret : string) :
  verifyStripeSignature payload signature secret
  = verifyStripeSignature payload' signature secret /\
  (secret <> "" ->
   verifyStripeSignature payload (before +:+ "v1=" +:+ after) secret = true) /\
  (Js.includes signature "v1=" = false ->
   verifyStripeSignature payload signature secret = false) /\
  verifyStripeSignature payload signature "" = false.
Proof.
  unfold verifyStripeSignature. split; [reflexivity|].
  split; [|split].
  - intros Hsecret. rewrite includes_middle.
    destruct secret; [congruence | reflexivity].
  - now intros ->.
  - apply andb_false_r.
Qed.

(** X8: the webhook's refusals change nothing and make no database call.
    Without a signature header, or with an empty one, the answer is 400
    [No signature header]; with a header that [verifyStripeSignature]
    refuses it is 400 [Invalid signature]; and with an accepted header on a
    payload that does not parse it is 500 [Webhook processing failed].  In
    each case the database is as before, whatever calls it would have
    rejected. *)
Theorem webhook_refusals_change_nothing
    (JSON_parse : string -> option StripeEvent) (secret : string)
    (fs : Faults) (req : WebhookRequest) (d : DB) :
  match stripe_signature req with
  | None | Some "" =>
      post_webhook_stripe JSON_parse secret fs req d
      = (json (ErrorBody "No signature header") 400, d)
  | Some signature =>
      if verifyStripeSignature (payload req) signature secret then
        JSON_parse (payload req) = None ->
        post_webhook_stripe JSON_parse secret fs req d
        = (json (ErrorBody "Webhook processing failed") 500, d)
      else
        post_webhook_stripe JSON_parse secret fs req d
        = (json (ErrorBody "Invalid signature") 400, d)
  end.
Proof.
  unfold post_webhook_stripe, route, stripe_webhook.
  destruct (stripe_signature req) as [[|c s]|]; try reflexivity.
  destruct (verifyStripeSignature _ _ _); [|reflexivity].
  now intros ->.
Qed.

(** ** Requests against a database that may reject calls *)

(** Four awaited writes in a row stop at the first rejected one. *)
Lemma run_four_writes {R} (fs : Faults) (s1 s2 s3 s4 : Statement) (r : R)
    (d : DB) :
  let result := run fs (Run s1 (Run s2 (Run s3 (Run s4 (Return r))))) d in
  let d1 := exec s1 d in
  let d2 := exec s2 d1 in
  let d3 := exec s3 d2 in
  let d4 := exec s4 d3 in
  result = (inr r, d4) \/
  exists e,
    fst result = inl e /\
    (snd result = d \/ snd result = d1 \/ snd result = d2 \/ snd result = d3).
Proof.
  cbv zeta.
  destruct fs as [|[e1|] [|[e2|] [|[e3|] [|[e4|] fs]]]]; cbn [run next_fault];
    first [ left; reflexivity
          | right; eexists; cbn [fst snd]; split; [reflexivity | tauto] ].
Qed.

(** Every way a generation request can end, whatever calls the database
    rejects: nothing written, or the first one, two, three or all four of
    its writes, in the order of the handler. *)
Lemma post_generate_outcomes fs user req w d :
  let result := post_generate fs (Some user) req w d in
  exists newBalance row usage image,
    user_id row = auth_id user /\
    type row = deduct /\
    balance_after row = Some newBalance /\
    cu_user_id usage = auth_id user /\
    gi_user_id image = auth_id user /\
    let d1 := exec (UpdateBalanceTo newBalance (auth_id user)) d in
    let d2 := exec (InsertTransaction row) d1 in
    let d3 := exec (InsertCreditUsage usage) d2 in
    let d4 := exec (InsertGeneratedImage image) d3 in
    (status (fst result) = 200%Z /\ snd result = d4) \/
    (status (fst result) <> 200%Z /\
     (snd result = d \/ snd result = d1 \/ snd result = d2 \/ snd result = d3)).
Proof.
  cbv zeta. unfold post_generate, route, generate.
  set (cost := rupees (calculateCreditCost (resolution req)
                         (length (productImages req)))).
  set (cur := Js.or_zero (balance_of d (auth_id user))).
  set (nb := Js.sub cur cost).
  eexists nb,
    {| user_id := auth_id user; type := deduct; amount := cost;
       credits_added := Some 0%Z; balance_after := Some nb;
       payment_gateway_id := None; description := _ |},
    {| cu_user_id := auth_id user; cu_generation_id := _;
       cu_credits_consumed := _; cu_generation_type := _;
       cu_resolution := _; cu_prompt := _; cu_image_url := _;
       cu_cost_in_rupees := _ |},
    {| gi_id := _; gi_user_id := auth_id user; gi_original_prompt := _;
       gi_enhanced_prompt := _; gi_image_url := _; gi_resolution := _;
       gi_generation_type := _; gi_credits_used := _ |}.
  cbn [user_id type balance_after cu_user_id gi_user_id].
  do 5 (split; [reflexivity|]).
  destruct (length (productImages req) =? 0)%nat.
  { right. cbn. split; [discriminate | tauto]. }
  cbn [run].
  destruct (next_fault fs) as [[e|] fs'].
  { right. cbn. split; [discriminate | tauto]. }
  fold cur. destruct (Js.lt cur cost).
  { right. cbn. split; [discriminate | tauto]. }
  fold nb.
  match goal with
  | |- context [run fs' (Run ?s1 (Run ?s2 (Run ?s3 (Run ?s4 (Return ?r))))) d] =>
      destruct (run_four_writes fs' s1 s2 s3 s4 r d) as [H|(e & He & H)]
  end.
  - left. rewrite H. split; reflexivity.
  - right.
    match goal with
    | |- context [run fs' ?h d] => destruct (run fs' h d) as [[e'|r] d']
    end; [|discriminate He].
    cbn [fst snd status json] in *. split; [discriminate | tauto].
Qed.

Lemma from_user_ne id user :
  from_user id (Some user) = false -> auth_id user <> id.
Proof. unfold from_user. intros H. now apply bool_decide_eq_false in H. Qed.

Lemma from_user_self user : from_user (auth_id user) (Some user) = true.
Proof. unfold from_user. now apply bool_decide_eq_true. Qed.

(** X9: whatever calls the database rejects, a generation request touches
    only its caller.  The [users] rows of everybody else are as before, no
    user is added or removed, and each of [wallet_transactions],
    [credit_usage] and [generated_images] keeps all its rows in place and
    gains at most one, which belongs to the caller (in the ledger, a
    [deduct]).  A request without a signed-in user changes nothing. *)
Theorem generate_touches_only_caller
    (fs : Faults) (user : option AuthUser) (req : GenerationRequest)
    (w : World) (d : DB) :
  let d' := snd (post_generate fs user req w d) in
  (forall id, from_user id user = false -> users d' !! id = users d !! id) /\
  dom (users d') = dom (users d) /\
  (exists rows,
      wallet_transactions d' = wallet_transactions d ++ rows /\
      (length rows <= 1)%nat /\
      Forall (fun t => from_user (user_id t) user = true /\ type t = deduct)
        rows) /\
  (exists rows,
      credit_usage d' = credit_usage d ++ rows /\
      (length rows <= 1)%nat /\
      Forall (fun c => from_user (cu_user_id c) user = true) rows) /\
  (exists rows,
      generated_images d' = generated_images d ++ rows /\
      (length rows <= 1)%nat /\
      Forall (fun i => from_user (gi_user_id i) user = true) rows).
Proof.
  intros d'. subst d'. destruct user as [user|].
  2: { cbn. repeat split; try (exists []; rewrite app_nil_r; repeat split;
                                [cbn; lia | constructor]). }
  destruct (post_generate_outcomes fs user req w d)
    as (nb & row & usage & image & Hrow & Hty & _ & Husage & Himage & H).
  cbv zeta in H.
  pose proof (from_user_self user) as Hself.
  assert (forall id, from_user id (Some user) = false ->
            alter (set_balance nb) (auth_id user) (users d) !! id
            = users d !! id) as Hothers.
  { intros id Hid. apply lookup_alter_ne, from_user_ne, Hid. }
  assert (dom (alter (set_balance nb) (auth_id user) (users d))
          = dom (users d)) as Hdom by apply dom_alter_L.
  destruct H as [[_ E]|[_ [E|[E|[E|E]]]]]; rewrite E;
    cbn [exec add_transaction with_users users wallet_transactions
         credit_usage generated_images];
    (split; [first [exact Hothers | reflexivity]|]);
    (split; [first [exact Hdom | reflexivity]|]);
    (split; [first [ exists []; rewrite app_nil_r; repeat split;
                     [cbn; lia | constructor]
                   | exists [row]; repeat split; [cbn; lia|];
                     repeat constructor; [now rewrite Hrow | exact Hty] ]|]);
    (split; [first [ exists []; rewrite app_nil_r; repeat split;
                     [cbn; lia | constructor]
                   | exists [usage]; repeat split; [cbn; lia|];
                     repeat constructor; now rewrite Husage ]|]);
    first [ exists []; rewrite app_nil_r; repeat split;
            [cbn; lia | constructor]
          | exists [image]; repeat split; [cbn; lia|];
            repeat constructor; now rewrite Himage ].
Qed.

(** X10: the four writes of a generation request are made in a fixed order,
    so whatever calls the database rejects, an image record is never stored
    without its usage record, a usage record never without the ledger row,
    and a ledger row never without the debit: the caller's balance then is
    the [balance_after] of that row.  The request is answered 200 only when
    all four were written. *)
Theorem generate_writes_in_order
    (fs : Faults) (user : AuthUser) (req : GenerationRequest) (w : World)
    (d : DB) :
  let result := post_generate fs (Some user) req w d in
  let d' := snd result in
  (generated_images d' <> generated_images d ->
   credit_usage d' <> credit_usage d) /\
  (credit_usage d' <> credit_usage d ->
   wallet_transactions d' <> wallet_transactions d) /\
  (wallet_transactions d' <> wallet_transactions d ->
   exists row,
     last (wallet_transactions d') = Some row /\
     balance_of d' (auth_id user)
     = match balance_of d (auth_id user) with
       | Some _ => balance_after row
       | None => None
       end) /\
  (status (fst result) = 200%Z ->
   generated_images d' <> generated_images d).
Proof.
  intros result d'. subst result d'.
  destruct (post_generate_outcomes fs user req w d)
    as (nb & row & usage & image & _ & _ & Hsnap & _ & _ & H).
  cbv zeta in H.
  assert (forall {A} (l : list A) x, l ++ [x] <> l) as Hgrow.
  { intros A l x E. apply (f_equal length) in E.
    rewrite length_app in E. cbn in E. lia. }
  assert (balance_of (exec (UpdateBalanceTo nb (auth_id user)) d) (auth_id user)
          = match balance_of d (auth_id user) with
            | Some _ => Some nb
            | None => None
            end) as Hbal.
  { unfold balance_of. cbn [exec with_users users].
    rewrite lookup_alter_eq. now destruct (users d !! auth_id user). }
  destruct H as [[Hs E]|[Hs [E|[E|[E|E]]]]]; rewrite E;
    cbn [exec add_transaction with_users users wallet_transactions
         credit_usage generated_images] in *;
    repeat split; try congruence; try (intros _; apply Hgrow).
  all: intros _; exists row; rewrite last_snoc, Hsnap;
    split; [reflexivity | exact Hbal].
Qed.

(** ** Balances that stay above zero *)

Lemma exec_keeps_nonneg s d :
  keeps_nonneg s -> no_overdraft d -> no_overdraft (exec s d).
Proof.
  intros Hs Hd id u. destruct s; cbn [keeps_nonneg] in Hs; try (apply Hd).
  - intros Hu. apply lookup_update_to_inv in Hu as (u0 & Hu0 & ->).
    case_decide; [exact Hs | now apply (Hd id)].
  - destruct Hs.
Qed.

Lemma exec_all_keeps_nonneg ss d :
  Forall keeps_nonneg ss -> no_overdraft d -> no_overdraft (exec_all ss d).
Proof.
  revert d. induction ss as [|s ss IH]; intros d Hss Hd; [exact Hd|].
  apply Forall_cons in Hss as [Hs Hss].
  apply IH; [exact Hss | now apply exec_keeps_nonneg].
Qed.

Lemma step_keeps_nonneg {R} (h : Handler R) d :
  writes_only keeps_nonneg h -> no_overdraft d ->
  writes_only keeps_nonneg (fst (step h d)) /\ no_overdraft (snd (step h d)).
Proof.
  destruct h; cbn [writes_only step fst snd]; intros Hh Hd.
  - now split.
  - now split.
  - split; [apply Hh | exact Hd].
  - destruct Hh as [Hs Hk]. split; [exact Hk | now apply exec_keeps_nonneg].
  - destruct Hh as [Hs Hk]. split; [exact Hk | now apply exec_all_keeps_nonneg].
Qed.

Lemma run_keeps_nonneg {R} (h : Handler R) fs d :
  writes_only keeps_nonneg h -> no_overdraft d ->
  no_overdraft (snd (run fs h d)).
Proof.
  revert fs d. induction h as [r|e|id k IH|s k IH|ss k IH];
    intros fs d Hh Hd; cbn [run writes_only] in *.
  - exact Hd.
  - exact Hd.
  - destruct (next_fault fs) as [[e|] fs']; [exact Hd|]. now apply IH.
  - destruct Hh as [Hs Hk].
    destruct (next_fault fs) as [[e|] fs']; [exact Hd|].
    apply IH; [exact Hk | now apply exec_keeps_nonneg].
  - destruct Hh as [Hs Hk].
    destruct (batch_fault (length ss) fs) as [[e|] fs']; [exact Hd|].
    apply IH; [exact Hk | now apply exec_all_keeps_nonneg].
Qed.

Lemma interleave_keeps_nonneg {R} schedule (h1 h2 : Handler R) d :
  writes_only keeps_nonneg h1 -> writes_only keeps_nonneg h2 ->
  no_overdraft d ->
  no_overdraft (snd (interleave schedule h1 h2 d)).
Proof.
  revert h1 h2 d.
  induction schedule as [|[|] schedule IH]; intros h1 h2 d H1 H2 Hd;
    cbn [interleave].
  - exact Hd.
  - destruct (step_keeps_nonneg h1 d H1 Hd) as [H1' Hd'].
    destruct (step h1 d) as [h1' d']. now apply IH.
  - destruct (step_keeps_nonneg h2 d H2 Hd) as [H2' Hd'].
    destruct (step h2 d) as [h2' d']. now apply IH.
Qed.

Lemma generate_writes_nonneg user req w :
  writes_only keeps_nonneg (generate user req w).
Proof.
  unfold generate. destruct user as [user|]; [|exact I].
  destruct (length (productImages req) =? 0)%nat; [exact I|].
  cbn [writes_only]. intros r.
  destruct (Js.lt _ _) eqn:Hcheck; [exact I|].
  cbn [writes_only keeps_nonneg]. repeat split.
  apply JsFacts.lt_false in Hcheck. rewrite JsFacts.sub_spec. lra.
Qed.

(** X11: the generation handler of [index.ts] never overdraws a wallet.
    Starting with no negative balance, there is none afterwards, whatever
    calls the database rejects during one request and however the calls of
    two requests in flight (of the same user or of two users) are
    interleaved: every balance the handler writes is a balance it read less
    a cost that the read covered. *)
Theorem generate_never_overdraws
    (fs : Faults) (schedule : list bool)
    (user1 user2 : option AuthUser) (req1 req2 : GenerationRequest)
    (w1 w2 : World) (d : DB) :
  no_overdraft d ->
  no_overdraft (snd (post_generate fs user1 req1 w1 d)) /\
  no_overdraft
    (snd (interleave schedule
            (generate user1 req1 w1) (generate user2 req2 w2) d)).
Proof.
  intros Hd. split.
  - unfold post_generate, route.
    pose proof (run_keeps_nonneg (generate user1 req1 w1) fs d
                  (generate_writes_nonneg _ _ _) Hd) as H.
    destruct (run fs (generate user1 req1 w1) d) as [[e|r] d']; exact H.
  - apply interleave_keeps_nonneg;
      [apply generate_writes_nonneg | apply generate_writes_nonneg | exact Hd].
Qed.

Lemma generate_never_overdraws_witness :
  no_overdraft
    (snd (interleave reads_then_writes
            (generate (Some Scenario.alice) Scenario.landscape Scenario.imagen_up)
            (generate (Some Scenario.alice) Scenario.landscape
               Scenario.imagen_down)
            (Scenario.fresh 75))).
Proof.
  assert (no_overdraft (Scenario.fresh 75)) as Hd.
  { intros id u Hu. unfold Scenario.fresh in Hu. cbn [users] in Hu.
    apply lookup_singleton_Some in Hu as [_ <-]. cbn. discriminate. }
  apply (generate_never_overdraws [] reads_then_writes
           (Some Scenario.alice) (Some Scenario.alice)
           Scenario.landscape Scenario.landscape
           Scenario.imagen_up Scenario.imagen_down (Scenario.fresh 75) Hd).
Defined.

(** ** Spending a balance *)

Lemma generate_each_rejected user req worlds d u :
  productImages req <> [] ->
  users d !! auth_id user = Some u ->
  (wallet_balance u
   < rupees (calculateCreditCost (resolution req)
               (length (productImages req))))%Q ->
  map status (fst (generate_each user req worlds d))
  = repeat 400%Z (length worlds) /\
  snd (generate_each user req worlds d) = d.
Proof.
  intros Himg Hu Hlt. induction worlds as [|w worlds IH]; [now split|].
  cbn [generate_each].
  pose proof (balance_below_cost _ _ Hlt) as Hcheck.
  rewrite <- (balance_of_lookup _ _ _ Hu) in Hcheck.
  rewrite (post_generate_insufficient [] user req w d Himg eq_refl Hcheck).
  destruct (generate_each user req worlds d) as [rs d'].
  cbn [fst snd map length repeat status json] in *.
  destruct IH as [-> ->]. now split.
Qed.

(** X12: a balance buys as many generations as its whole multiples of the
    cost.  With a balance of [k] times the rupee cost of the request plus a
    remainder smaller than the cost, the first [k] requests sent one after
    the other are answered 200, every later one is answered 400, and the
    balance left is the remainder. *)
Theorem generate_each_spends_balance
    (user : AuthUser) (req : GenerationRequest)
    (paid refused : list World) (d : DB) (u : User) (remainder : Q) :
  productImages req <> [] ->
  users d !! auth_id user = Some u ->
  let cost :=
    rupees (calculateCreditCost (resolution req) (length (productImages req))) in
  (0 <= remainder)%Q ->
  (remainder < cost)%Q ->
  (wallet_balance u
   == inject_Z (Z.of_nat (length paid)) * cost + remainder)%Q ->
  let result := generate_each user req (paid ++ refused) d in
  map status (fst result)
  = repeat 200%Z (length paid) ++ repeat 400%Z (length refused) /\
  exists u',
    users (snd result) !! auth_id user = Some u' /\
    (wallet_balance u' == remainder)%Q.
Proof.
  intros Himg Hu cost Hrem0 Hrem Hbal. cbv zeta.
  revert d u Hu Hbal. induction paid as [|w paid IH]; intros d u Hu Hbal.
  - cbn [app length repeat]. cbn [length] in Hbal.
    change (inject_Z (Z.of_nat 0)) with 0%Q in Hbal.
    assert (wallet_balance u < cost)%Q as Hlt.
    { rewrite Hbal. lra. }
    destruct (generate_each_rejected user req refused d u Himg Hu Hlt)
      as [Hst Hd].
    split; [exact Hst|]. rewrite Hd. exists u. split; [exact Hu|].
    rewrite Hbal. lra.
  - cbn [app generate_each length].
    assert (inject_Z (Z.of_nat (S (length paid)))
            == inject_Z (Z.of_nat (length paid)) + 1)%Q as Hsucc.
    { rewrite Nat2Z.inj_succ, <- Z.add_1_r, inject_Z_plus. reflexivity. }
    assert (0 <= inject_Z (Z.of_nat (length paid)))%Q as Hk.
    { change 0%Q with (inject_Z 0). rewrite <- Zle_Qle. lia. }
    assert (0 <= inject_Z (Z.of_nat (length paid)) * cost)%Q as Hprod.
    { apply Qmult_le_0_compat; [exact Hk | lra]. }
    assert (cost <= wallet_balance u)%Q as Hle.
    { rewrite Hbal, Hsucc. lra. }
    pose proof (balance_covers_cost _ _ Hle) as Hcheck.
    rewrite <- (balance_of_lookup _ _ _ Hu) in Hcheck.
    destruct (post_generate_sufficient user req w d Himg Hcheck)
      as (Hres & Husers & _).
    destruct (post_generate [] (Some user) req w d) as [r d1].
    cbn [fst snd] in Hres, Husers.
    set (nb := Js.sub (Js.or_zero (balance_of d (auth_id user))) cost) in *.
    assert (users d1 !! auth_id user = Some (set_balance nb u)) as Hu1.
    { rewrite Husers, lookup_alter_eq, Hu. reflexivity. }
    assert (wallet_balance (set_balance nb u)
            == inject_Z (Z.of_nat (length paid)) * cost + remainder)%Q as Hbal1.
    { cbn [set_balance wallet_balance]. unfold nb.
      rewrite JsFacts.sub_spec, (balance_of_lookup _ _ _ Hu),
        JsFacts.or_zero_some, Hbal, Hsucc.
      ring. }
    destruct (IH d1 _ Hu1 Hbal1) as [Hst Hfinal].
    destruct (generate_each user req (paid ++ refused) d1) as [rs d2].
    cbn [fst snd map repeat app] in *.
    rewrite Hst, Hres. split; [reflexivity | exact Hfinal].
Qed.

Lemma generate_each_spends_balance_witness :
  map status
    (fst (generate_each Scenario.alice Scenario.landscape
            ([Scenario.imagen_up; Scenario.imagen_down] ++ [Scenario.imagen_up])
            (Scenario.fresh 120)))
  = repeat 200%Z 2 ++ repeat 400%Z 1.
Proof.
  assert (productImages Scenario.landscape <> []) as Himg by discriminate.
  assert ((Qnum 0 * QDen 20 <= Qnum 20 * QDen 0)%Z) as H0
    by (vm_compute; discriminate).
  assert ((Qnum 20 * QDen 50 < Qnum 50 * QDen 20)%Z) as H1 by reflexivity.
  apply (generate_each_spends_balance Scenario.alice Scenario.landscape
           [Scenario.imagen_up; Scenario.imagen_down] [Scenario.imagen_up]
           (Scenario.fresh 120)
           {| email := "alice@example.com"; wallet_balance := 120 |} 20
           Himg eq_refl H0 H1).
  reflexivity.
Defined.

(** ** [updateWalletBalance] on a failing database *)

Lemma updateWalletBalance_faulty_consistent fs userId amt descr d :
  consistent d ->
  consistent (snd (run fs (updateWalletBalance userId amt descr) d)).
Proof.
  intros Hd.
  destruct (updateWalletBalance_all_or_nothing fs userId amt descr d)
    as [[_ E]|(e & _ & E)]; cbv zeta in E.
  - pose proof (updateWalletBalance_consistent userId amt descr d Hd) as H.
    unfold updateWalletBalance in H.
    cbn [run batch_fault next_fault length snd exec_all fold_left] in H.
    rewrite E. exact H.
  - rewrite E. exact Hd.
Qed.

(** X13: [updateWalletBalance] keeps the wallet and the ledger in step on a
    failing database.  After any series of calls, for any users, with
    positive, zero or negative amounts, and whichever statements the
    database rejects, every user's balance is still the replay of that
    user's ledger rows and every row carries the balance after its own
    mutation: a call whose batch is rejected leaves no trace. *)
Theorem updateWalletBalance_keeps_ledger
    (calls : list (Faults * string * Q * string)) (d : DB) :
  consistent d ->
  consistent (updateWalletBalance_each calls d).
Proof.
  unfold updateWalletBalance_each. revert d.
  induction calls as [|[[[fs userId] amt] descr] calls IH]; intros d Hd;
    [exact Hd|].
  cbn [fold_left]. apply IH.
  now apply updateWalletBalance_faulty_consistent.
Qed.

Lemma updateWalletBalance_keeps_ledger_witness :
  consistent
    (updateWalletBalance_each
       [ ([], "user_1", 500%Q, "Top-up");
         ([None; Some "D1_ERROR: Network connection lost"], "user_1",
          (-50)%Q, "Image generation");
         ([], "user_1", (-600)%Q, "Image generation") ]
       (Scenario.fresh 0)).
Proof.
  apply (updateWalletBalance_keeps_ledger
           [ ([], "user_1", 500%Q, "Top-up");
             ([None; Some "D1_ERROR: Network connection lost"], "user_1",
              (-50)%Q, "Image generation");
             ([], "user_1", (-600)%Q, "Image generation") ]
           (Scenario.fresh 0)).
  apply consistent_fresh; [reflexivity|].
  intros id u Hu. unfold Scenario.fresh in Hu. cbn [users] in Hu.
  apply lookup_singleton_Some in Hu as [_ <-]. reflexivity.
Defined.

(** ** The webhook on a failing database *)

Lemma credit_session_outcomes fs session d :
  let d' :=
    snd (route (fun _ => json (ErrorBody "Webhook processing failed") 500) fs
           (credit_session session) d) in
  d' = d \/
  exists md newBalance row,
    metadata session = Some md /\
    user_id row = md_user_id md /\
    type row = topup /\
    payment_gateway_id row = Some (session_id session) /\
    (d' = exec (UpdateBalanceTo newBalance (md_user_id md)) d \/
     d' = exec (InsertTransaction row)
            (exec (UpdateBalanceTo newBalance (md_user_id md)) d)).
Proof.
  cbv zeta. unfold route, credit_session.
  destruct (metadata session) as [md|]; [|now left].
  set (amt := Js.div (amount_total session) 100).
  set (nb := Js.add (Js.or_zero (balance_of d (md_user_id md))) amt).
  destruct fs as [|[e0|] [|[e1|] [|[e2|] fs]]]; cbn [run next_fault snd];
    first [ now left
          | right;
            exists md, nb,
              {| user_id := md_user_id md; type := topup; amount := amt;
                 credits_added := Some (Js.floor (Js.div amt 25));
                 balance_after := Some nb;
                 payment_gateway_id := Some (session_id session);
                 description :=
                   "Payment completed - " +:+
                   Js.show (Js.floor (Js.div amt 25)) +:+ " credits added" |};
            cbn [user_id type payment_gateway_id];
            do 4 (split; [reflexivity|]);
            first [ left; reflexivity | right; reflexivity ] ].
Qed.

(** X14: whatever calls the database rejects and whatever the request, the
    Stripe webhook leaves [credit_usage] and [generated_images] alone, adds
    and removes no user, and keeps every ledger row in place while adding at
    most one, a [topup] that carries the id of the checkout session.  The
    only [users] row it can change is that of the user named in the
    metadata of a completed checkout. *)
Theorem webhook_touches_only_payee
    (JSON_parse : string -> option StripeEvent) (secret : string)
    (fs : Faults) (req : WebhookRequest) (d : DB) :
  let d' := snd (post_webhook_stripe JSON_parse secret fs req d) in
  credit_usage d' = credit_usage d /\
  generated_images d' = generated_images d /\
  dom (users d') = dom (users d) /\
  (exists rows,
      wallet_transactions d' = wallet_transactions d ++ rows /\
      (length rows <= 1)%nat /\
      Forall (fun t => type t = topup /\
                       exists event session,
                         JSON_parse (payload req) = Some event /\
                         data_object event = Some session /\
                         payment_gateway_id t = Some (session_id session))
        rows) /\
  (forall id,
      users d' !! id <> users d !! id ->
      exists event session md,
        JSON_parse (payload req) = Some event /\
        event_type event = "checkout.session.completed" /\
        data_object event = Some session /\
        metadata session = Some md /\
        md_user_id md = id).
Proof.
  intros d'. subst d'.
  assert (forall d', d' = d ->
            credit_usage d' = credit_usage d /\
            generated_images d' = generated_images d /\
            dom (users d') = dom (users d) /\
            (exists rows,
                wallet_transactions d' = wallet_transactions d ++ rows /\
                (length rows <= 1)%nat /\
                Forall (fun t => type t = topup /\
                                 exists event session,
                                   JSON_parse (payload req) = Some event /\
                                   data_object event = Some session /\
                                   payment_gateway_id t
                                   = Some (session_id session))
                  rows) /\
            (forall id,
                users d' !! id <> users d !! id ->
                exists event session md,
                  JSON_parse (payload req) = Some event /\
                  event_type event = "checkout.session.completed" /\
                  data_object event = Some session /\
                  metadata session = Some md /\
                  md_user_id md = id)) as Hsame.
  { intros d' ->. repeat split.
    - exists []. rewrite app_nil_r. repeat split; [cbn; lia | constructor].
    - intros id H. congruence. }
  unfold post_webhook_stripe, stripe_webhook.
  destruct (stripe_signature req) as [[|c s]|]; try (now apply Hsame).
  destruct (verifyStripeSignature _ _ _); [|now apply Hsame]. cbn [negb].
  destruct (JSON_parse (payload req)) as [event|] eqn:Hparse;
    [|now apply Hsame].
  destruct (String.eqb (event_type event) _) eqn:Hty; [|now apply Hsame].
  apply String.eqb_eq in Hty.
  destruct (data_object event) as [session|] eqn:Hobj; [|now apply Hsame].
  destruct (credit_session_outcomes fs session d)
    as [E|(md & nb & row & Hmd & Hrow & Htopup & Hgate & [E|E])];
    cbv zeta in E; [now apply Hsame| |]; rewrite E;
    cbn [exec add_transaction with_users users wallet_transactions
         credit_usage generated_images].
  all: split; [reflexivity|]; split; [reflexivity|].
  all: split; [apply dom_alter_L|].
  all: split;
    [ first [ exists []; rewrite app_nil_r; repeat split;
              [cbn; lia | constructor]
            | exists [row]; repeat split; [cbn; lia|];
              repeat constructor; [exact Htopup|];
              exists event, session; repeat split; assumption ]|].
  all: intros id Hid; exists event, session, md; repeat split; try assumption;
    destruct (decide (md_user_id md = id)) as [?|Hne]; [assumption|];
    exfalso; apply Hid; now apply lookup_alter_ne.
Qed.

(** ** Accounts *)

Lemma createUser_existing userData a u :
  users (db a) !! ud_id userData = Some u ->
  db (createUser userData a) = db a /\
  profiles (createUser userData a) = profiles a /\
  user_preferences (createUser userData a)
  = match user_preferences a !! ud_id userData with
    | Some _ => user_preferences a
    | None => <[ud_id userData := default_preferences]> (user_preferences a)
    end.
Proof.
  intros Hu. unfold createUser. rewrite Hu.
  destruct (user_preferences a !! ud_id userData); now repeat split.
Qed.

Lemma createUser_lookup userData a :
  users (db (createUser userData a)) !! ud_id userData
  = Some (default {| email := ud_email userData; wallet_balance := 0 |}
            (users (db a) !! ud_id userData)) /\
  user_preferences (createUser userData a) !! ud_id userData
  = Some (default default_preferences (user_preferences a !! ud_id userData)).
Proof.
  unfold createUser.
  destruct (users (db a) !! ud_id userData) as [u|] eqn:Hu;
    cbn [user_preferences];
    destruct (user_preferences a !! ud_id userData) as [p|] eqn:Hp;
    cbn [db with_users users user_preferences default];
    rewrite ?lookup_insert_eq, ?Hu, ?Hp; split; reflexivity.
Qed.

(** X15: [createUser] never overwrites an account.  For an id that already
    has a [users] row, the row (its email and its wallet balance), the name
    and picture, and any stored preferences are left exactly as they were,
    whatever data the call carries; for a new id the wallet starts at 0.
    Either way [getUserStats] finds the user afterwards, with preferences,
    and a second call with the same data changes nothing more. *)
Theorem createUser_keeps_existing (userData : UserData) (a : Accounts) :
  let a' := createUser userData a in
  (forall u,
      users (db a) !! ud_id userData = Some u ->
      db a' = db a /\
      profiles a' = profiles a /\
      (forall p, user_preferences a !! ud_id userData = Some p ->
                 user_preferences a' = user_preferences a)) /\
  (users (db a) !! ud_id userData = None ->
   users (db a') !! ud_id userData
   = Some {| email := ud_email userData; wallet_balance := 0 |}) /\
  (exists u prefs,
      getUserStats (ud_id userData) a'
      = Some (u, profile_of (ud_id userData) a', Some prefs)) /\
  createUser userData a' = a'.
Proof.
  cbv zeta.
  destruct (createUser_lookup userData a) as [Husers Hprefs].
  split; [|split; [|split]].
  - intros u Hu.
    destruct (createUser_existing userData a u Hu) as (Hdb & Hprof & Hp').
    repeat split; try assumption.
    intros p Hp. now rewrite Hp', Hp.
  - intros Hu. now rewrite Husers, Hu.
  - unfold getUserStats. rewrite Husers, Hprefs. eauto.
  - set (a' := createUser userData a) in *.
    unfold createUser. rewrite Husers. cbv zeta. now rewrite Hprefs.
Qed.

(** X16: creating a user keeps the wallet and the ledger in step, provided
    the ledger holds no row under an id that has no [users] row yet: the new
    user starts with a zero balance and an empty ledger, and nobody else's
    balance or rows are touched. *)
Theorem createUser_keeps_ledger (userData : UserData) (a : Accounts) :
  consistent (db a) ->
  (users (db a) !! ud_id userData = None ->
   ledger_of (ud_id userData) (wallet_transactions (db a)) = []) ->
  consistent (db (createUser userData a)) /\
  wallet_transactions (db (createUser userData a))
  = wallet_transactions (db a).
Proof.
  intros Hd Hnew.
  assert (db (createUser userData a)
          = match users (db a) !! ud_id userData with
            | Some _ => db a
            | None =>
                with_users (db a)
                  (<[ud_id userData :=
                       {| email := ud_email userData; wallet_balance := 0 |}]>
                     (users (db a)))
            end) as E.
  { unfold createUser.
    destruct (users (db a) !! ud_id userData);
      destruct (user_preferences _ !! ud_id userData); reflexivity. }
  rewrite E.
  destruct (users (db a) !! ud_id userData) as [u|] eqn:Hu; [now split|].
  split; [|reflexivity].
  intros id u'. cbn [with_users users wallet_transactions].
  destruct (decide (ud_id userData = id)) as [<-|Hne].
  - rewrite lookup_insert_eq. intros [= <-]. rewrite (Hnew eq_refl).
    split; [reflexivity | apply snapshots_ok_nil].
  - rewrite lookup_insert_ne by exact Hne. apply Hd.
Qed.

Lemma createUser_keeps_ledger_witness :
  consistent
    (db (createUser
           {| ud_id := "user_2"; ud_email := "bob@example.com";
              ud_name := Some "Bob"; ud_picture := None |}
           {| db := Scenario.fresh 0; profiles := ∅; user_preferences := ∅ |})).
Proof.
  apply (createUser_keeps_ledger
           {| ud_id := "user_2"; ud_email := "bob@example.com";
              ud_name := Some "Bob"; ud_picture := None |}
           {| db := Scenario.fresh 0; profiles := ∅; user_preferences := ∅ |}).
  - apply consistent_fresh; [reflexivity|].
    intros id u Hu. unfold Scenario.fresh in Hu. cbn [db users] in Hu.
    apply lookup_singleton_Some in Hu as [_ <-]. reflexivity.
  - reflexivity.
Defined.

(** ** Pages of images *)

Lemma chunks_concat {A} (rows : list A) (size k : nat) :
  concat (map (fun q => take size (drop (q * size) rows)) (seq 0 k))
  = take (k * size) rows.
Proof.
  induction k as [|k IH]; [reflexivity|].
  rewrite seq_S, map_app, concat_app, IH. cbn [map concat plus].
  rewrite app_nil_r, take_take_drop. f_equal. lia.
Qed.

(** The number of pages is the least one that holds [count] rows. *)
Lemma ceiling_pages (count limit : Z) :
  (0 <= count)%Z -> (1 <= limit)%Z ->
  let pages := Qceiling (inject_Z count / inject_Z limit) in
  (count <= pages * limit)%Z /\ ((pages - 1) * limit < count)%Z.
Proof.
  intros Hcount Hlimit pages.
  assert (0 < inject_Z limit)%Q as Hpos.
  { change 0%Q with (inject_Z 0). rewrite <- Zlt_Qlt. lia. }
  assert (inject_Z count / inject_Z limit * inject_Z limit == inject_Z count)%Q
    as Hdiv by (field; lra).
  split.
  - pose proof (Qle_ceiling (inject_Z count / inject_Z limit)) as H.
    fold pages in H.
    apply (Qmult_le_compat_r _ _ (inject_Z limit)) in H; [|lra].
    rewrite Hdiv, <- inject_Z_mult, <- Zle_Qle in H. exact H.
  - pose proof (Qceiling_lt (inject_Z count / inject_Z limit)) as H.
    fold pages in H.
    apply (Qmult_lt_compat_r _ _ (inject_Z limit) Hpos) in H.
    rewrite Hdiv, <- inject_Z_mult, <- Zlt_Qlt in H. exact H.
Qed.

Lemma getImages_page newest_first userId (p : nat) limit d :
  (1 <= limit)%Z ->
  images (getImages newest_first userId (Z.of_nat (S p)) limit d)
  = take (Z.to_nat limit)
      (drop (p * Z.to_nat limit) (newest_first (images_of userId d))).
Proof.
  intros Hlimit. unfold getImages, limit_offset. cbn [images].
  destruct (Z.ltb_spec limit 0); [lia|].
  do 2 f_equal. nia.
Qed.

(** X17: the pages of [getImages] cut the user's images up without loss or
    overlap.  For a limit of at least one, and a database that returns as
    many rows as it counts, pages 1 to [totalPages] laid end to end are the
    user's images in the order of the query; each of these pages holds at
    least one image and at most [limit]; and every later page is empty. *)
Theorem getImages_pages_partition
    (newest_first : list GeneratedImage -> list GeneratedImage)
    (userId : string) (limit : Z) (d : DB) :
  (forall rows, length (newest_first rows) = length rows) ->
  (1 <= limit)%Z ->
  let pages := totalPages (getImages newest_first userId 1 limit d) in
  concat
    (map (fun p => images (getImages newest_first userId (Z.of_nat p) limit d))
       (seq 1 (Z.to_nat pages)))
  = newest_first (images_of userId d) /\
  (forall p, (1 <= p <= pages)%Z ->
     images (getImages newest_first userId p limit d) <> [] /\
     (Z.of_nat (length (images (getImages newest_first userId p limit d)))
      <= limit)%Z) /\
  (forall p, (pages < p)%Z ->
     images (getImages newest_first userId p limit d) = []).
Proof.
  intros Hlen Hlimit pages.
  set (rows := newest_first (images_of userId d)).
  assert (length rows = length (images_of userId d)) as Hrows by apply Hlen.
  destruct (ceiling_pages (Z.of_nat (length (images_of userId d))) limit
              (Nat2Z.is_nonneg _) Hlimit) as [Hup Hlow].
  change (Qceiling _) with pages in Hup, Hlow.
  assert (0 <= pages)%Z as Hpages by nia.
  split; [|split].
  - rewrite <- seq_shift, map_map.
    rewrite (map_ext _ (fun q => take (Z.to_nat limit)
                                   (drop (q * Z.to_nat limit) rows)))
      by (intros q; now apply getImages_page).
    rewrite chunks_concat. apply take_ge. nia.
  - intros p [Hp1 Hp2].
    replace p with (Z.of_nat (S (Z.to_nat (p - 1)))) by lia.
    rewrite getImages_page by exact Hlimit. fold rows.
    split.
    + intros E. apply (f_equal length) in E.
      rewrite length_take, length_drop in E. cbn [length] in E. nia.
    + rewrite length_take. lia.
  - intros p Hp.
    replace p with (Z.of_nat (S (Z.to_nat (p - 1)))) by lia.
    rewrite getImages_page by exact Hlimit. fold rows.
    rewrite drop_ge; [apply take_nil | nia].
Qed.

Lemma getImages_pages_partition_witness :
  concat
    (map (fun p =>
            images (getImages (@rev GeneratedImage) "user_1" (Z.of_nat p) 1
                      (snd (generate_each Scenario.alice Scenario.landscape
                              [Scenario.imagen_up; Scenario.imagen_down]
                              (Scenario.fresh 100)))))
       (seq 1 (Z.to_nat
                 (totalPages
                    (getImages (@rev GeneratedImage) "user_1" 1 1
                       (snd (generate_each Scenario.alice Scenario.landscape
                               [Scenario.imagen_up; Scenario.imagen_down]
                               (Scenario.fresh 100))))))))
  = rev (images_of "user_1"
           (snd (generate_each Scenario.alice Scenario.landscape
                   [Scenario.imagen_up; Scenario.imagen_down]
                   (Scenario.fresh 100)))).
Proof.
  assert (1 <= 1)%Z as Hlimit by lia.
  destruct (getImages_pages_partition (@rev GeneratedImage) "user_1" 1
              (snd (generate_each Scenario.alice Scenario.landscape
                      [Scenario.imagen_up; Scenario.imagen_down]
                      (Scenario.fresh 100)))
              (@length_rev GeneratedImage) Hlimit) as [H _].
  exact H.
Defined.

(** ** The client and the server *)

Lemma ge_proper a a' b : (a == a')%Q -> Js.ge a b = Js.ge a' b.
Proof. intros E. unfold Js.ge. now rewrite E. Qed.

(** X18: the component enables its Generate button exactly when the server
    would serve the request.  For a signed-in user whose displayed balance
    is the stored one, [canGenerate] holds if and only if
    [POST /api/generate], with the same resolution and images and a
    database that answers every call, is answered 200. *)
Theorem canGenerate_agrees_with_server
    (user : AuthUser) (req : GenerationRequest) (w : World) (d : DB)
    (u : User) (walletBalance : Q) :
  users d !! auth_id user = Some u ->
  (walletBalance == wallet_balance u)%Q ->
  canGenerate walletBalance (resolution req) (productImages req) = true <->
  status (fst (post_generate [] (Some user) req w d)) = 200%Z.
Proof.
  intros Hu Hshown. unfold canGenerate. cbv zeta.
  set (cost := rupees (calculateCreditCost (resolution req)
                         (length (productImages req)))).
  rewrite (ge_proper _ _ cost Hshown).
  destruct (decide (productImages req = [])) as [Hnil|Himg].
  { unfold post_generate, route, generate. rewrite Hnil. cbn.
    rewrite andb_false_r. split; discriminate. }
  assert ((0 <? length (productImages req))%nat = true) as ->.
  { apply Nat.ltb_lt. destruct (productImages req); [congruence | cbn; lia]. }
  rewrite andb_true_r.
  destruct (Js.lt (Js.or_zero (balance_of d (auth_id user))) cost) eqn:Hcheck.
  - rewrite (post_generate_insufficient [] user req w d Himg eq_refl Hcheck).
    cbn [fst status json]. split; [|discriminate].
    intros Hge. apply JsFacts.ge_spec in Hge.
    rewrite (balance_of_lookup _ _ _ Hu) in Hcheck.
    apply JsFacts.lt_spec in Hcheck.
    rewrite JsFacts.or_zero_some in Hcheck. lra.
  - destruct (post_generate_sufficient user req w d Himg Hcheck) as [-> _].
    cbn [status json]. split; [reflexivity|]. intros _.
    apply JsFacts.ge_spec.
    rewrite (balance_of_lookup _ _ _ Hu) in Hcheck.
    apply JsFacts.lt_false in Hcheck.
    now rewrite JsFacts.or_zero_some in Hcheck.
Qed.

Lemma canGenerate_agrees_with_server_witness :
  canGenerate 100 "1920x1080" (productImages Scenario.landscape) = true <->
  status (fst (post_generate [] (Some Scenario.alice) Scenario.landscape
                 Scenario.imagen_up (Scenario.fresh 100))) = 200%Z.
Proof.
  apply (canGenerate_agrees_with_server Scenario.alice Scenario.landscape
           Scenario.imagen_up (Scenario.fresh 100)
           {| email := "alice@example.com"; wallet_balance := 100 |} 100);
    reflexivity.
Defined.

(** ** From checkout to credit *)

(** X19: what is paid is what is credited.  When the checkout session that
    [createCheckoutSession] asks for is completed for its full amount
    ([amount_total] is its [unit_amount], the quantity being one) and
    delivered to the webhook under the user id of its metadata, the user's
    balance grows by exactly the amount asked for, and the ledger row
    records that amount and, as [credits_added], the base credits promised
    in the metadata.  The bonus credits of the metadata are not part of the
    credit. *)
Theorem checkout_round_trip
    (JSON_parse : string -> option StripeEvent) (secret : string)
    (price : Q) (userId userEmail successUrl cancelUrl : string)
    (req : WebhookRequest) (signature : string) (event : StripeEvent)
    (session : Session) (d : DB) (u : User) :
  let params :=
    createCheckoutSession price userId userEmail successUrl cancelUrl in
  stripe_signature req = Some signature ->
  verifyStripeSignature (payload req) signature secret = true ->
  JSON_parse (payload req) = Some event ->
  event_type event = "checkout.session.completed" ->
  data_object event = Some session ->
  metadata session = Some {| md_user_id := meta_user_id params |} ->
  (amount_total session == unit_amount params)%Q ->
  users d !! userId = Some u ->
  let d' := snd (post_webhook_stripe JSON_parse secret [] req d) in
  exists row u' credits,
    wallet_transactions d' = wallet_transactions d ++ [row] /\
    type row = topup /\
    (amount row == price)%Q /\
    credits_added row = Some credits /\
    Js.show credits = meta_base_credits params /\
    users d' !! userId = Some u' /\
    (wallet_balance u' == wallet_balance u + price)%Q.
Proof.
  intros params Hsig Hok Hparse Hty Hobj Hmd Hpaid Hu d'.
  destruct (checkout_delivery_effect _ _ _ _ _ _ _ _ _
              Hsig Hok Hparse Hty Hobj Hmd Hu)
    as (_ & nb & Hnb & Hlook & Hrows).
  fold d' in Hlook, Hrows. cbn [md_user_id meta_user_id params
                                 createCheckoutSession] in Hlook, Hrows, Hnb.
  assert (amount_total session / 100 == price)%Q as Hamount.
  { rewrite Hpaid. unfold params. cbn [unit_amount createCheckoutSession].
    rewrite JsFacts.mul_spec. field. }
  eexists _, _, _. split; [exact Hrows|].
  cbn [type amount credits_added].
  split; [reflexivity|].
  split; [now rewrite JsFacts.div_spec|].
  split; [reflexivity|].
  split.
  { unfold params. cbn [meta_base_credits createCheckoutSession].
    unfold Js.floor. apply (f_equal Js.show). apply Qfloor_comp.
    rewrite !JsFacts.div_spec, Hamount. reflexivity. }
  split; [exact Hlook|].
  cbn [set_balance wallet_balance]. now rewrite Hnb, Hamount.
Qed.

Lemma checkout_round_trip_witness :
  exists row u' credits,
    wallet_transactions
      (snd (post_webhook_stripe Scenario.parse Scenario.secret []
              (Scenario.delivery "checkout") (Scenario.fresh 200)))
    = wallet_transactions (Scenario.fresh 200) ++ [row] /\
    type row = topup /\
    (amount row == 1000)%Q /\
    credits_added row = Some credits /\
    Js.show credits
    = meta_base_credits
        (createCheckoutSession 1000 "user_1" "alice@example.com"
           "https://app.example.com/payment/success"
           "https://app.example.com/payment/cancel") /\
    users (snd (post_webhook_stripe Scenario.parse Scenario.secret []
                  (Scenario.delivery "checkout") (Scenario.fresh 200)))
      !! "user_1" = Some u' /\
    (wallet_balance u' == 200 + 1000)%Q.
Proof.
  apply (checkout_round_trip Scenario.parse Scenario.secret 1000 "user_1"
           "alice@example.com" "https://app.example.com/payment/success"
           "https://app.example.com/payment/cancel"
           (Scenario.delivery "checkout") "t=1700000000,v1=5257a869"
           Scenario.checkout_1000
           {| session_id := "cs_test_a1B2";
              metadata := Some {| md_user_id := "user_1" |};
              amount_total := 100000 |}
           (Scenario.fresh 200)
           {| email := "alice@example.com"; wallet_balance := 200 |});
    reflexivity.
Defined.

(** X20: the plans of the payment modal agree with the server.  For every
    entry of [PAYMENT_PLANS] the credits shown are the base credits
    [createCheckoutSession] computes for the amount (one per 25 rupees),
    the bonus shown, or none, is [calculateBonusCredits] of the amount, so
    the product description sent to Stripe names the same total, and the
    amount passes the minimum of [/api/payment/create-checkout]. *)
Theorem payment_plans_agree_with_server :
  Forall
    (fun plan =>
       let params :=
         createCheckoutSession (plan_amount plan) "user" "user@example.com"
           "/payment/success" "/payment/cancel" in
       let bonus := default 0%Z (plan_bonus plan) in
       meta_base_credits params = Js.show (plan_credits plan) /\
       meta_bonus_credits params = Js.show bonus /\
       calculateBonusCredits (plan_amount plan) = bonus /\
       product_description params
       = Js.show (plan_credits plan + bonus) +:+ " credits (" +:+
         Js.show (plan_credits plan) +:+ " base + " +:+ Js.show bonus +:+
         " bonus)" /\
       amount_refused (plan_amount plan) = false)
    PAYMENT_PLANS.
Proof. repeat constructor. Qed.

(** ** The low-balance warning *)

Lemma floor_lt (x : Q) (n : Z) : (Qfloor x < n)%Z <-> (x < inject_Z n)%Q.
Proof.
  split; intros H.
  - apply Qlt_le_trans with (inject_Z (Qfloor x + 1)); [apply Qlt_floor|].
    rewrite <- Zle_Qle. lia.
  - rewrite Zlt_Qlt. apply Qle_lt_trans with x; [apply Qfloor_le | exact H].
Qed.

(** X21: the wallet panel warns of a low balance exactly below 125 rupees,
    the price of the dearest resolution.  So whenever no warning is shown,
    the credits the panel reports cover every entry of [RESOLUTIONS], and
    the balance covers its rupee cost. *)
Theorem isLowBalance_threshold (walletBalance : Q) :
  (isLowBalance walletBalance = true <-> (walletBalance < 125)%Q) /\
  (isLowBalance walletBalance = false ->
   Forall (fun r =>
             (credits r <= availableCredits walletBalance)%Z /\
             (rupees (credits r) <= walletBalance)%Q)
     RESOLUTIONS).
Proof.
  assert (isLowBalance walletBalance = true <-> (walletBalance < 125)%Q) as Hlow.
  { unfold isLowBalance, availableCredits, Js.floor.
    rewrite Z.ltb_lt, floor_lt, JsFacts.div_spec.
    change (inject_Z 5) with 5%Q. split; intros H.
    - apply (Qmult_lt_compat_r _ _ 25) in H; [|reflexivity].
      assert (walletBalance / 25 * 25 == walletBalance)%Q as E
        by (field; discriminate).
      rewrite E in H. exact H.
    - apply Qlt_shift_div_r; [reflexivity | exact H]. }
  split; [exact Hlow|].
  intros Hok.
  assert (125 <= walletBalance)%Q as Hbal.
  { apply Qnot_lt_le. intros H. apply Hlow in H. congruence. }
  assert (5 <= availableCredits walletBalance)%Z as Hcredits.
  { unfold isLowBalance in Hok. apply Z.ltb_ge in Hok. exact Hok. }
  repeat constructor; cbn [credits]; try lia;
    (eapply Qle_trans; [|exact Hbal]); vm_compute; discriminate.
Qed.
